(** * MidiMiti relay controller: a shallow embedding of [main.c]

    The firmware keeps four relay slots in a file-scope array, drives four
    GPIO lines from them, and maps incoming MIDI messages (USB or BLE) onto
    relay actions.  This development embeds the relay engine ([set_relay],
    [print_relay_states]), the command mapper ([process_midi_message]) and
    the body of the polling loop of [main], and proves the behavioural
    properties of the design document about them. *)

From Stdlib Require Import ZArith String List Bool Lia.
From stdpp Require Import base option list.
Import ListNotations.

Open Scope string_scope.
Open Scope list_scope.
Open Scope Z_scope.

(** ** Constants of [main.c] *)

Definition MIDI_NOTE_OFF : Z := 0x80.
Definition MIDI_NOTE_ON : Z := 0x90.
Definition MIDI_CC : Z := 0xB0.
Definition MIDI_PROGRAM_CHANGE : Z := 0xC0.

Definition RELAY_1_PIN : Z := 16.
Definition RELAY_2_PIN : Z := 17.
Definition RELAY_3_PIN : Z := 18.
Definition RELAY_4_PIN : Z := 19.

Definition RELAY_1_NOTE : Z := 60.
Definition RELAY_2_NOTE : Z := 61.
Definition RELAY_3_NOTE : Z := 62.
Definition RELAY_4_NOTE : Z := 63.

(** A [uint8_t] value. *)
Definition uint8 (z : Z) : Prop := 0 <= z < 256.

(** ** Observable events

    Everything the firmware does to the outside world is a call into the
    SDK.  The calls are recorded, in program order, in a trace.  A [printf]
    is kept as its format string together with its arguments. *)

Inductive printf_arg : Type :=
| ArgS (s : string)   (* an argument consumed by %s *)
| ArgD (n : Z)        (* an argument consumed by %d *)
| ArgX (n : Z).       (* an argument consumed by %02X *)

Inductive sdk_call : Type :=
| TudTask
| TudMidiMounted
| TudMidiPacketRead
| BleMidiServerIsConnected
| BleMidiServerStreamRead
| Cyw43ArchPoll
| SleepMs (ms : Z).

Inductive event : Type :=
| GpioInit (pin : Z)
| GpioSetDirOut (pin : Z)
| GpioPut (pin : Z) (value : bool)
| Printf (fmt : string) (args : list printf_arg)
| Call (c : sdk_call).

(** ** Program state

    [relay_states] is the file-scope array [static bool relay_states[4]];
    [trace] is the history of SDK calls made so far. *)

Record world : Type := World {
  relay_states : list bool;
  trace : list event
}.

(** The array has four slots for the whole life of the program. *)
Definition wf (w : world) : Prop := length (relay_states w) = 4%nat.

(** State right after reset: the array initialiser of [main.c:51]. *)
Definition power_on : world :=
  {| relay_states := [false; false; false; false]; trace := [] |}.

(** ** Commands

    A C function returning [void] is a partial state transformer.  [None]
    stands for undefined behaviour; its only possible source in the code
    embedded here is an array access outside the bounds of
    [relay_states]. *)

Definition cmd : Type := world -> option world.

Definition skip : cmd := fun w => Some w.

Definition seq (c1 c2 : cmd) : cmd :=
  fun w => match c1 w with
           | Some w' => c2 w'
           | None => None
           end.

Notation "c1 >> c2" := (seq c1 c2) (at level 90, right associativity).

Definition emit (e : event) : cmd :=
  fun w => Some {| relay_states := relay_states w; trace := trace w ++ [e] |}.

Definition gpio_init (pin : Z) : cmd := emit (GpioInit pin).
Definition gpio_set_dir_out (pin : Z) : cmd := emit (GpioSetDirOut pin).
Definition gpio_put (pin : Z) (value : bool) : cmd := emit (GpioPut pin value).
Definition printf (fmt : string) (args : list printf_arg) : cmd :=
  emit (Printf fmt args).

(** [relay_states[i] = v]; writing outside the array is undefined. *)
Definition store_relay_state (i : Z) (v : bool) : cmd :=
  fun w =>
    if (0 <=? i) && (i <? Z.of_nat (length (relay_states w)))
    then Some {| relay_states := <[Z.to_nat i := v]> (relay_states w);
                 trace := trace w |}
    else None.

(** [relay_states[i]] as an rvalue. *)
Definition load_relay_state (i : nat) (w : world) : option bool :=
  relay_states w !! i.

(** ** The relay engine *)

(** [init_relays], main.c:63-82. *)
Definition init_relays : cmd :=
  gpio_init RELAY_1_PIN >>
  gpio_init RELAY_2_PIN >>
  gpio_init RELAY_3_PIN >>
  gpio_init RELAY_4_PIN >>
  gpio_set_dir_out RELAY_1_PIN >>
  gpio_set_dir_out RELAY_2_PIN >>
  gpio_set_dir_out RELAY_3_PIN >>
  gpio_set_dir_out RELAY_4_PIN >>
  gpio_put RELAY_1_PIN false >>
  gpio_put RELAY_2_PIN false >>
  gpio_put RELAY_3_PIN false >>
  gpio_put RELAY_4_PIN false >>
  printf "Relays initialized on pins 16-19\r\n" [].

Definition on_off (b : bool) : string := if b then "ON" else "OFF".
Definition on_off_padded (b : bool) : string := if b then "ON " else "OFF".

(** [print_relay_states], main.c:181-188. *)
Definition print_relay_states : cmd :=
  fun w =>
    match load_relay_state 0 w, load_relay_state 1 w,
          load_relay_state 2 w, load_relay_state 3 w with
    | Some r0, Some r1, Some r2, Some r3 =>
        printf "Relay States: [1:%s] [2:%s] [3:%s] [4:%s]\r\n"
               [ArgS (on_off_padded r0); ArgS (on_off_padded r1);
                ArgS (on_off_padded r2); ArgS (on_off_padded r3)] w
    | _, _, _, _ => None
    end.

(** [set_relay], main.c:85-100. *)
Definition set_relay (relay_num : Z) (state : bool) : cmd :=
  if (relay_num <? 1) || (relay_num >? 4) then skip
  else
    store_relay_state (relay_num - 1) state >>
    (if relay_num =? 1 then gpio_put RELAY_1_PIN state
     else if relay_num =? 2 then gpio_put RELAY_2_PIN state
     else if relay_num =? 3 then gpio_put RELAY_3_PIN state
     else if relay_num =? 4 then gpio_put RELAY_4_PIN state
     else skip) >>
    printf "Relay %d: %s\r\n" [ArgD relay_num; ArgS (on_off state)] >>
    print_relay_states.

(** ** The command mapper *)

(** [process_midi_message], main.c:103-178. *)
Definition process_midi_message
    (status data1 data2 : Z) (from_bluetooth : bool) : cmd :=
  let source := if from_bluetooth then "BT" else "USB" in
  let msg_type := Z.land status 0xF0 in
  let channel := Z.land status 0x0F in
  if msg_type =? MIDI_NOTE_ON then
    if data2 >? 0 then
      printf "[%s] Note On: Ch%d Note%d Vel%d\r\n"
             [ArgS source; ArgD (channel + 1); ArgD data1; ArgD data2] >>
      (if data1 =? RELAY_1_NOTE then set_relay 1 true
       else if data1 =? RELAY_2_NOTE then set_relay 2 true
       else if data1 =? RELAY_3_NOTE then set_relay 3 true
       else if data1 =? RELAY_4_NOTE then set_relay 4 true
       else printf "Note %d not mapped to relay\r\n" [ArgD data1])
    else
      printf "[%s] Note Off: Ch%d Note%d\r\n"
             [ArgS source; ArgD (channel + 1); ArgD data1] >>
      (if data1 =? RELAY_1_NOTE then set_relay 1 false
       else if data1 =? RELAY_2_NOTE then set_relay 2 false
       else if data1 =? RELAY_3_NOTE then set_relay 3 false
       else if data1 =? RELAY_4_NOTE then set_relay 4 false
       else skip)
  else if msg_type =? MIDI_NOTE_OFF then
    printf "[%s] Note Off: Ch%d Note%d Vel%d\r\n"
           [ArgS source; ArgD (channel + 1); ArgD data1; ArgD data2] >>
    (if data1 =? RELAY_1_NOTE then set_relay 1 false
     else if data1 =? RELAY_2_NOTE then set_relay 2 false
     else if data1 =? RELAY_3_NOTE then set_relay 3 false
     else if data1 =? RELAY_4_NOTE then set_relay 4 false
     else skip)
  else if msg_type =? MIDI_CC then
    printf "[%s] CC: Ch%d CC%d Val%d\r\n"
           [ArgS source; ArgD (channel + 1); ArgD data1; ArgD data2] >>
    (if (data1 >=? 1) && (data1 <=? 4)
     then set_relay data1 (data2 >=? 64)
     else skip)
  else if msg_type =? MIDI_PROGRAM_CHANGE then
    printf "[%s] Program: Ch%d Prog%d\r\n"
           [ArgS source; ArgD (channel + 1); ArgD data1] >>
    (if (data1 >=? 0) && (data1 <=? 3) then
       set_relay 1 false >>
       set_relay 2 false >>
       set_relay 3 false >>
       set_relay 4 false >>
       set_relay (data1 + 1) true
     else
       set_relay 1 false >>
       set_relay 2 false >>
       set_relay 3 false >>
       set_relay 4 false)
  else
    printf "[%s] Unknown MIDI: 0x%02X 0x%02X 0x%02X\r\n"
           [ArgS source; ArgX status; ArgX data1; ArgX data2].

(** ** The polling loop of [main] *)

(** [uint8_t packet[4]]: one USB-MIDI event packet. *)
Record usb_packet : Type := UsbPacket {
  packet_0 : Z;
  packet_1 : Z;
  packet_2 : Z;
  packet_3 : Z
}.

(** [uint8_t ble_packet[3]] as it stands after the read call. *)
Record ble_buffer : Type := BleBuffer {
  ble_packet_0 : Z;
  ble_packet_1 : Z;
  ble_packet_2 : Z
}.

(** The SDK functions the loop calls, over an abstract environment [env]
    (USB stack, BLE stack, clock).  None of them can reach the file-scope
    array of [main.c], so they act on [env] alone.

    - [tud_midi_packet_read] yields [Some packet] when the C function
      returns true after filling [packet], and [None] when it returns
      false;
    - [ble_midi_server_stream_read max e] yields the returned byte count
      together with the contents of the caller's buffer after the call.
      The buffer is a fresh, uninitialised local, so its bytes from the
      returned count onwards are arbitrary. *)
Record sdk (env : Type) : Type := Sdk {
  tud_task : env -> env;
  tud_midi_mounted : env -> bool * env;
  tud_midi_packet_read : env -> option usb_packet * env;
  ble_midi_server_is_connected : env -> bool * env;
  ble_midi_server_stream_read : Z -> env -> (Z * ble_buffer) * env;
  cyw43_arch_poll : env -> env;
  sleep_ms : Z -> env -> env
}.

Arguments tud_task {env}.
Arguments tud_midi_mounted {env}.
Arguments tud_midi_packet_read {env}.
Arguments ble_midi_server_is_connected {env}.
Arguments ble_midi_server_stream_read {env}.
Arguments cyw43_arch_poll {env}.
Arguments sleep_ms {env}.

Section Main.
Context {env : Type} (K : sdk env).

(** The USB check, main.c:351-357. *)
Definition main_usb_check (e : env) (w : world) : option (env * world) :=
  let '(mounted, e) := tud_midi_mounted K e in
  w ← emit (Call TudMidiMounted) w;
  if mounted then
    let '(r, e) := tud_midi_packet_read K e in
    w ← emit (Call TudMidiPacketRead) w;
    match r with
    | Some packet =>
        w ← process_midi_message
              (packet_1 packet) (packet_2 packet) (packet_3 packet) false w;
        Some (e, w)
    | None => Some (e, w)
    end
  else Some (e, w).

(** The BLE check, main.c:359-372; [sizeof(ble_packet)] is 3. *)
Definition main_ble_check (e : env) (w : world) : option (env * world) :=
  let '(connected, e) := ble_midi_server_is_connected K e in
  w ← emit (Call BleMidiServerIsConnected) w;
  if connected then
    let '((nread, ble_packet), e) := ble_midi_server_stream_read K 3 e in
    w ← emit (Call BleMidiServerStreamRead) w;
    if nread >? 0 then
      if nread >=? 1 then
        let data1 := if nread >=? 2 then ble_packet_1 ble_packet else 0 in
        let data2 := if nread >=? 3 then ble_packet_2 ble_packet else 0 in
        w ← process_midi_message
              (ble_packet_0 ble_packet) data1 data2 true w;
        Some (e, w)
      else Some (e, w)
    else Some (e, w)
  else Some (e, w).

(** One pass through the body of [while (1)], main.c:347-379. *)
Definition main_loop_body (e : env) (w : world) : option (env * world) :=
  let e := tud_task K e in
  w ← emit (Call TudTask) w;
  '(e, w) ← main_usb_check e w;
  '(e, w) ← main_ble_check e w;
  let e := cyw43_arch_poll K e in
  w ← emit (Call Cyw43ArchPoll) w;
  let e := sleep_ms K 1 e in
  w ← emit (Call (SleepMs 1)) w;
  Some (e, w).

(** The first [n] passes of the loop, which itself never exits. *)
Fixpoint main_loop (n : nat) (e : env) (w : world) : option (env * world) :=
  match n with
  | O => Some (e, w)
  | S n' =>
      '(e, w) ← main_loop_body e w;
      main_loop n' e w
  end.
End Main.

(** ** Start-up: [setup_bluetooth_midi], [bt_packet_handler], [main] *)

(** The SDK functions [main] calls before the loop.  [cyw43_arch_init]
    yields its return code; the other results are not used by [main].
    [ble_midi_server_init] is always called with the same constant
    arguments, so it is taken as a function of the environment alone.
    These calls act on the environment only; the trace keeps recording
    pin accesses, printed lines and the SDK calls of the loop. *)
Record sdk_start (env : Type) : Type := SdkStart {
  stdio_init_all : env -> env;
  cyw43_arch_init : env -> Z * env;
  tud_init : Z -> env -> env;
  ble_midi_server_init : env -> env
}.

Arguments stdio_init_all {env}.
Arguments cyw43_arch_init {env}.
Arguments tud_init {env}.
Arguments ble_midi_server_init {env}.

(** [bt_packet_handler], main.c:222-231: every argument is discarded. *)
Definition bt_packet_handler
    (packet_type channel : Z) (packet : list Z) (size : Z) : cmd :=
  skip.

(** How far [main] has got: it has returned, or it is in its loop. *)
Inductive main_status : Type :=
| Returned (code : Z)
| InLoop.

Section Start.
Context {env : Type} (B : sdk_start env) (K : sdk env).

(** [setup_bluetooth_midi], main.c:206-219.  The last component of the
    result is the value it leaves in the file-scope flag
    [bluetooth_connected]. *)
Definition setup_bluetooth_midi (e : env) (w : world)
  : option (env * world * bool) :=
  w ← printf "Setting up BLE MIDI as 'MidiMiti'...\r\n" [] w;
  let e := ble_midi_server_init B e in
  w ← printf "BLE MIDI server initialized as 'MidiMiti'\r\n" [] w;
  w ← printf "Device should be discoverable in Bluetooth MIDI settings\r\n"
        [] w;
  Some (e, w, false).

(** The statements of [main] before its loop, main.c:315-344.  The first
    component of the result is [Some code] when [main] returns there.
    [bluetooth_connected] is the value of the file-scope flag on entry. *)
Definition main_startup (e : env) (w : world) (bluetooth_connected : bool)
  : option (option Z * env * world * bool) :=
  let e := stdio_init_all B e in
  w ← printf "\r\n=== MIDI Relay Controller ===\r\n" [] w;
  w ← printf "Controls 4 relays via MIDI messages\r\n" [] w;
  w ← printf "USB & Bluetooth MIDI supported\r\n\r\n" [] w;
  w ← init_relays w;
  let '(rc, e) := cyw43_arch_init B e in
  if negb (rc =? 0) then
    w ← printf "Failed to initialize cyw43\r\n" [] w;
    Some (Some (-1), e, w, bluetooth_connected)
  else
    let e := tud_init B 0 e in
    '(e, w, bluetooth_connected) ← setup_bluetooth_midi e w;
    w ← printf "\r\nMIDI Mapping:\r\n" [] w;
    w ← printf
          "Notes: C4(60)=Relay1, C#4(61)=Relay2, D4(62)=Relay3, D#4(63)=Relay4\r\n"
          [] w;
    w ← printf "CC: CC1-4 control Relay1-4 (>=64=ON, <64=OFF)\r\n" [] w;
    w ← printf "Program: 0-3 select single relay, others=all off\r\n\r\n"
          [] w;
    w ← print_relay_states w;
    Some (None, e, w, bluetooth_connected).

(** [main], main.c:313-382, observed after [n] passes of its loop. *)
Definition main (n : nat) (e : env) (w : world) (bluetooth_connected : bool)
  : option (main_status * env * world * bool) :=
  '(ret, e, w, bluetooth_connected) ← main_startup e w bluetooth_connected;
  match ret with
  | Some code => Some (Returned code, e, w, bluetooth_connected)
  | None =>
      '(e, w) ← main_loop K n e w;
      Some (InLoop, e, w, bluetooth_connected)
  end.
End Start.

(** ** USB string descriptors: [tud_descriptor_string_cb] *)

(** The [char] values of a string literal, without the terminating NUL. *)
Definition chars (s : string) : list Z :=
  map (fun c => Z.of_nat (Ascii.nat_of_ascii c))
      (String.list_ascii_of_string s).

(** [string_desc_arr], main.c:276-282: the bytes of each entry.  Entry 0
    is the two-byte array [{0x09, 0x04}]; the others are string
    literals. *)
Definition string_desc_arr : list (list Z) :=
  [ [0x09; 0x04]; chars "MidiMiti"; chars "MidiMiti"; chars "123456" ].

(** [strlen] on the bytes of a string: the bytes before the first NUL
    (the terminator follows the last byte of the list). *)
Fixpoint strlen (str : list Z) : Z :=
  match str with
  | [] => 0
  | c :: str' => if c =? 0 then 0 else 1 + strlen str'
  end.

(** What the callback returns: [NULL] or the address of [_desc_str]. *)
Inductive desc_ptr : Type :=
| NullPtr
| DescStrPtr.

(** [_desc_str[i] = v] on the [uint16_t] array [_desc_str]; writing
    outside the array is undefined. *)
Definition store16 (i v : Z) (desc : list Z) : option (list Z) :=
  if (0 <=? i) && (i <? Z.of_nat (length desc))
  then Some (<[Z.to_nat i := v mod 65536]> desc)
  else None.

(** The copy loop of main.c:302-304, with [count] iterations left and the
    loop variable at [i]; reading outside [str] is undefined. *)
Fixpoint copy_chars (count : nat) (i : Z) (str desc : list Z)
  : option (list Z) :=
  match count with
  | O => Some desc
  | S count' =>
      c ← str !! Z.to_nat i;
      desc ← store16 (1 + i) c desc;
      copy_chars count' (i + 1) str desc
  end.

Section StringDescriptor.
(** [TUSB_DESC_STRING] comes from the TinyUSB headers; [table] stands for
    [string_desc_arr], whose length is what
    [sizeof(string_desc_arr)/sizeof(string_desc_arr[0])] computes. *)
Variable TUSB_DESC_STRING : Z.
Variable table : list (list Z).

(** The last two statements, main.c:307-309: the header word, then the
    address of the buffer. *)
Definition finish_descriptor (chr_count : Z) (desc : list Z)
  : option (desc_ptr * list Z) :=
  desc ← store16 0 (Z.lor (Z.shiftl TUSB_DESC_STRING 8) (2 * chr_count + 2))
         desc;
  Some (DescStrPtr, desc).

(** [tud_descriptor_string_cb], main.c:286-310, on the buffer [desc] (the
    static [_desc_str], 32 words).  The target is little-endian (RP2040),
    so the two bytes copied by [memcpy] into [_desc_str[1]] form the word
    [byte0 + 256 * byte1]. *)
Definition tud_descriptor_string_cb_on
    (index langid : Z) (desc : list Z) : option (desc_ptr * list Z) :=
  if index =? 0 then
    entry ← table !! 0%nat;
    byte0 ← entry !! 0%nat;
    byte1 ← entry !! 1%nat;
    desc ← store16 1 (byte0 + 256 * byte1) desc;
    finish_descriptor 1 desc
  else
    if negb (index <? Z.of_nat (length table)) then Some (NullPtr, desc)
    else
      str ← table !! Z.to_nat index;
      let chr_count := strlen str mod 256 in
      let chr_count := if chr_count >? 31 then 31 else chr_count in
      desc ← copy_chars (Z.to_nat chr_count) 0 str desc;
      finish_descriptor chr_count desc.
End StringDescriptor.

(** The callback of the source, on the table of the source. *)
Definition tud_descriptor_string_cb
    (TUSB_DESC_STRING index langid : Z) (desc : list Z)
  : option (desc_ptr * list Z) :=
  tud_descriptor_string_cb_on TUSB_DESC_STRING string_desc_arr
    index langid desc.

(** A table whose entry 1 is longer than a descriptor can hold. *)
Definition long_name_table : list (list Z) :=
  [ [0x09; 0x04];
    chars "A product name that is much longer than thirty-one characters" ].

(** Reading a string descriptor back, as a USB host does: the low byte of
    word 0 is the length in bytes, its high byte the descriptor type, and
    the characters are the (length - 2) / 2 words that follow. *)
Definition descriptor_length (desc : list Z) : Z :=
  Z.land (nth 0 desc 0) 0xFF.

Definition descriptor_type (desc : list Z) : Z :=
  Z.shiftr (nth 0 desc 0) 8.

Definition descriptor_chars (desc : list Z) : list Z :=
  take (Z.to_nat ((descriptor_length desc - 2) / 2)) (drop 1 desc).

(** ** The USB device descriptor *)

(** [CFG_TUD_ENDPOINT0_SIZE], from the project's [tusb_config.h]. *)
Definition CFG_TUD_ENDPOINT0_SIZE : Z := 64.

(** [desc_device], main.c:234-250; [TUSB_DESC_DEVICE] comes from the
    TinyUSB headers. *)
Definition desc_device (TUSB_DESC_DEVICE : Z) : list Z :=
  [ 18;                      (* bLength *)
    TUSB_DESC_DEVICE;        (* bDescriptorType *)
    0x00; 0x02;              (* bcdUSB *)
    0x00;                    (* bDeviceClass *)
    0x00;                    (* bDeviceSubClass *)
    0x00;                    (* bDeviceProtocol *)
    CFG_TUD_ENDPOINT0_SIZE;  (* bMaxPacketSize0 *)
    0xA0; 0xCA;              (* idVendor *)
    0x01; 0x42;              (* idProduct *)
    0x00; 0x01;              (* bcdDevice *)
    0x01;                    (* iManufacturer *)
    0x02;                    (* iProduct *)
    0x03;                    (* iSerialNumber *)
    0x01 ].                  (* bNumConfigurations *)

(** [tud_descriptor_device_cb], main.c:252-255. *)
Definition tud_descriptor_device_cb (TUSB_DESC_DEVICE : Z) : list Z :=
  desc_device TUSB_DESC_DEVICE.

(** A 16-bit field of a descriptor, stored low byte first. *)
Definition field16 (desc : list Z) (offset : nat) : Z :=
  nth offset desc 0 + 256 * nth (S offset) desc 0.

(** The offsets of the three string-index fields of a device descriptor:
    iManufacturer, iProduct, iSerialNumber. *)
Definition string_index_offsets : list nat := [14; 15; 16]%nat.

(** A scripted SDK for running the loop on examples: each transport is a
    queue of pending messages, and the housekeeping calls do nothing.  A
    BLE frame of more than three bytes is cut to the buffer size; the
    buffer positions a read does not fill hold 0xAA. *)
Record script : Type := Script {
  usb_mounted : bool;
  usb_pending : list usb_packet;
  ble_connected : bool;
  ble_pending : list (list Z)
}.

Definition scripted_packet_read (e : script) : option usb_packet * script :=
  match usb_pending e with
  | [] => (None, e)
  | p :: rest =>
      (Some p, {| usb_mounted := usb_mounted e; usb_pending := rest;
                  ble_connected := ble_connected e;
                  ble_pending := ble_pending e |})
  end.

Definition scripted_stream_read (max : Z) (e : script)
  : (Z * ble_buffer) * script :=
  match ble_pending e with
  | [] => ((0, BleBuffer 0xAA 0xAA 0xAA), e)
  | frame :: rest =>
      let bytes := take (Z.to_nat max) frame in
      ((Z.of_nat (length bytes),
        BleBuffer (nth 0 bytes 0xAA) (nth 1 bytes 0xAA) (nth 2 bytes 0xAA)),
       {| usb_mounted := usb_mounted e; usb_pending := usb_pending e;
          ble_connected := ble_connected e; ble_pending := rest |})
  end.

Definition scripted_sdk : sdk script :=
  {| tud_task := fun e => e;
     tud_midi_mounted := fun e => (usb_mounted e, e);
     tud_midi_packet_read := scripted_packet_read;
     ble_midi_server_is_connected := fun e => (ble_connected e, e);
     ble_midi_server_stream_read := scripted_stream_read;
     cyw43_arch_poll := fun e => e;
     sleep_ms := fun _ e => e |}.

(** Scripted start-up functions: [cyw43_arch_init] returns [rc]. *)
Definition scripted_start (rc : Z) : sdk_start script :=
  {| stdio_init_all := fun e => e;
     cyw43_arch_init := fun e => (rc, e);
     tud_init := fun _ e => e;
     ble_midi_server_init := fun e => e |}.

(** USB not mounted, BLE connected, nothing pending. *)
Definition idle_script : script :=
  {| usb_mounted := false; usb_pending := [];
     ble_connected := true; ble_pending := [] |}.

(** USB not mounted, BLE connected with a single one-byte frame pending. *)
Definition ble_only_script : script :=
  {| usb_mounted := false; usb_pending := [];
     ble_connected := true; ble_pending := [[0xC0]] |}.

(** Both transports connected: a burst of three NoteOn packets on USB and
    a single one-byte frame on BLE. *)
Definition busy_script : script :=
  {| usb_mounted := true;
     usb_pending := [UsbPacket 0x09 0x90 60 100; UsbPacket 0x09 0x90 61 100;
                     UsbPacket 0x09 0x90 62 100];
     ble_connected := true;
     ble_pending := [[0xC0]] |}.

(** [busy_script] after its first USB packet has been read. *)
Definition busy_script_usb_read : script :=
  {| usb_mounted := true;
     usb_pending := [UsbPacket 0x09 0x90 61 100; UsbPacket 0x09 0x90 62 100];
     ble_connected := true;
     ble_pending := [[0xC0]] |}.

(** [busy_script] after one full pass of the loop. *)
Definition busy_script_after_pass : script :=
  {| usb_mounted := true;
     usb_pending := [UsbPacket 0x09 0x90 61 100; UsbPacket 0x09 0x90 62 100];
     ble_connected := true;
     ble_pending := [] |}.

(** ** Observations on traces *)

(** The physical writes, in order: every [gpio_put(pin, value)]. *)
Fixpoint gpio_writes (tr : list event) : list (Z * bool) :=
  match tr with
  | [] => []
  | GpioPut pin value :: tr' => (pin, value) :: gpio_writes tr'
  | _ :: tr' => gpio_writes tr'
  end.

(** The arguments [print_relay_states] hands to [printf] for an array. *)
Definition relay_states_report (rs : list bool) : list printf_arg :=
  map (fun b => ArgS (on_off_padded b)) rs.

(** What one in-range [set_relay] call sends to the SDK: the pin write,
    the "Relay n" line and the state report of the updated array. *)
Definition set_relay_events (id : Z) (on : bool) (rs' : list bool)
  : list event :=
  [ GpioPut (15 + id) on;
    Printf "Relay %d: %s\r\n" [ArgD id; ArgS (on_off on)];
    Printf "Relay States: [1:%s] [2:%s] [3:%s] [4:%s]\r\n"
           (relay_states_report rs') ].

(** The note-to-relay table of the design document, as data. *)
Definition note_table : list (Z * Z) := [(60, 1); (61, 2); (62, 3); (63, 4)].

Definition lookup_note (note : Z) : option Z :=
  snd <$> find (fun entry => fst entry =? note) note_table.

(** ** Properties of commands *)

(** [prepend tr w] puts [tr] in front of the trace of [w]. *)
Definition prepend (tr : list event) (w : world) : world :=
  {| relay_states := relay_states w; trace := tr ++ trace w |}.

(** A command is [local] when it reads the state array only and appends to
    the trace: run after a history [tr], it does what it does after the
    empty history, with [tr] in front. *)
Definition local (c : cmd) : Prop :=
  forall rs tr,
    c {| relay_states := rs; trace := tr |} =
    prepend tr <$> c {| relay_states := rs; trace := [] |}.

(** A command is [total] when it returns from every well-formed state, in
    a well-formed state. *)
Definition total (c : cmd) : Prop :=
  forall w, wf w -> exists w', c w = Some w' /\ wf w'.

(** Two states that show the same relays: same array, same pin writes. *)
Definition same_relays (w1 w2 : world) : Prop :=
  relay_states w1 = relay_states w2 /\
  gpio_writes (trace w1) = gpio_writes (trace w2).

(** Two commands [agree] when, from states showing the same relays, both
    fail or both return states showing the same relays. *)
Definition agree (c1 c2 : cmd) : Prop :=
  forall w1 w2, same_relays w1 w2 -> option_Forall2 same_relays (c1 w1) (c2 w2).

(** ** Counting events *)

Definition count (f : event -> bool) (tr : list event) : nat :=
  length (List.filter f tr).

(** The calls of the two read functions. *)
Definition is_usb_read (e : event) : bool :=
  match e with Call TudMidiPacketRead => true | _ => false end.

Definition is_ble_read (e : event) : bool :=
  match e with Call BleMidiServerStreamRead => true | _ => false end.

(** The first line [process_midi_message] prints for a message names its
    source: every branch starts with a [printf] whose first argument is
    the string [source].  No other [printf] of the program has "USB" or
    "BT" as its first argument, so these lines count the messages
    dispatched per transport. *)
Definition is_dispatch (source : string) (e : event) : bool :=
  match e with
  | Printf _ (ArgS s :: _) => String.eqb s source
  | _ => false
  end.

(** [c] appends exactly [n] events selected by [f]. *)
Definition emits (f : event -> bool) (n : nat) (c : cmd) : Prop :=
  forall rs w',
    c {| relay_states := rs; trace := [] |} = Some w' ->
    count f (trace w') = n.

(** A selector that never picks what the relay engine emits: pin writes,
    lines whose first argument is a number, and lines whose first
    argument is a padded ON/OFF word. *)
Definition ignores_engine (f : event -> bool) : Prop :=
  (forall pin v, f (GpioPut pin v) = false) /\
  (forall fmt n args, f (Printf fmt (ArgD n :: args)) = false) /\
  (forall fmt b args, f (Printf fmt (ArgS (on_off_padded b) :: args)) = false).

(** The state [w] after the SDK calls [cs] have been made. *)
Definition after_calls (cs : list sdk_call) (w : world) : world :=
  {| relay_states := relay_states w; trace := trace w ++ map Call cs |}.

(** The 3-byte tuple built from a received payload by zero-padding. *)
Definition zero_padded (payload : list Z) : Z * Z * Z :=
  (nth 0 payload 0, nth 1 payload 0, nth 2 payload 0).

(** The first [n] bytes of the BLE buffer: the payload of the frame. *)
Definition ble_payload (n : Z) (buf : ble_buffer) : list Z :=
  take (Z.to_nat n) [ble_packet_0 buf; ble_packet_1 buf; ble_packet_2 buf].

(** ** Pin levels *)

(** The levels written to [pin], in order. *)
Definition writes_to (pin : Z) (tr : list event) : list bool :=
  map snd (List.filter (fun pv => fst pv =? pin) (gpio_writes tr)).

(** The level [pin] is driven to after [tr]: the last one written to it. *)
Definition pin_level (pin : Z) (tr : list event) : option bool :=
  last (writes_to pin tr).

(** The state array mirrors the pins: the pin of every relay (pin
    [15 + id] for relay [id], that is [RELAY_1_PIN] .. [RELAY_4_PIN]) has
    been driven, last to the level that slot [id - 1] holds. *)
Definition mirrors (w : world) : Prop :=
  forall id : Z, 1 <= id <= 4 ->
    pin_level (15 + id) (trace w) = relay_states w !! Z.to_nat (id - 1).

(** [c] keeps the property [P] of states. *)
Definition preserves (P : world -> Prop) (c : cmd) : Prop :=
  forall w w', P w -> c w = Some w' -> P w'.

(** The array is in bounds and mirrors the pins. *)
Definition consistent (w : world) : Prop := wf w /\ mirrors w.

(** The state after [init_relays] has run from reset. *)
Definition booted : world :=
  Eval vm_compute in default power_on (init_relays power_on).

(** ** The relay actions of a message *)

(** The [set_relay] calls [process_midi_message] makes for a message, in
    order, read off its branches: pairs of a relay id and a value. *)
Definition relay_actions (status data1 data2 : Z) : list (Z * bool) :=
  let msg_type := Z.land status 0xF0 in
  if msg_type =? MIDI_NOTE_ON then
    match lookup_note data1 with
    | Some id => [(id, 0 <? data2)]
    | None => []
    end
  else if msg_type =? MIDI_NOTE_OFF then
    match lookup_note data1 with
    | Some id => [(id, false)]
    | None => []
    end
  else if msg_type =? MIDI_CC then
    if (data1 >=? 1) && (data1 <=? 4) then [(data1, data2 >=? 64)] else []
  else if msg_type =? MIDI_PROGRAM_CHANGE then
    [(1, false); (2, false); (3, false); (4, false)]
    ++ (if (data1 >=? 0) && (data1 <=? 3) then [(data1 + 1, true)] else [])
  else [].

(** Running a list of actions: one [set_relay] call each. *)
Definition do_actions (acts : list (Z * bool)) : cmd :=
  foldr (fun a c => set_relay (fst a) (snd a) >> c) skip acts.

(** What an action does to the array and which pin write it causes. *)
Definition apply_action (rs : list bool) (a : Z * bool) : list bool :=
  <[Z.to_nat (fst a - 1) := snd a]> rs.

Definition action_write (a : Z * bool) : Z * bool := (15 + fst a, snd a).

Definition valid_action (a : Z * bool) : Prop := 1 <= fst a <= 4.

(** ** More event selectors *)

(** Any call of an SDK function of the loop. *)
Definition is_sdk_call (e : event) : bool :=
  match e with Call _ => true | _ => false end.

(** The three housekeeping calls of a pass. *)
Definition is_tud_task (e : event) : bool :=
  match e with Call TudTask => true | _ => false end.

Definition is_cyw43_poll (e : event) : bool :=
  match e with Call Cyw43ArchPoll => true | _ => false end.

Definition is_sleep_1ms (e : event) : bool :=
  match e with Call (SleepMs ms) => ms =? 1 | _ => false end.

Definition is_housekeeping (e : event) : bool :=
  is_tud_task e || is_cyw43_poll e || is_sleep_1ms e.

(** Nothing connected, although both queues hold a message. *)
Definition offline_script : script :=
  {| usb_mounted := false; usb_pending := [UsbPacket 0x09 0x90 60 100];
     ble_connected := false; ble_pending := [[0xC0]] |}.

(** [booted] after three passes with nothing connected, and what those
    passes added to the trace. *)
Definition booted_idle3 : world :=
  Eval vm_compute in
    default booted (snd <$> main_loop scripted_sdk 3 offline_script booted).

Definition idle3_events : list event :=
  Eval vm_compute in drop (length (trace booted)) (trace booted_idle3).

(** * Proofs *)

Example init_relays_all_off :
  (fun w => (relay_states w, gpio_writes (trace w))) <$> init_relays power_on
  = Some ([false; false; false; false],
          [(16, false); (17, false); (18, false); (19, false)]).
Proof. reflexivity. Qed.

Example power_on_cc2_64 :
  relay_states <$> process_midi_message 0xB0 2 64 false power_on
  = Some [false; true; false; false].
Proof. reflexivity. Qed.

(** * Basic facts about commands *)

Lemma gpio_writes_app (t1 t2 : list event) :
  gpio_writes (t1 ++ t2) = gpio_writes t1 ++ gpio_writes t2.
Proof.
  induction t1 as [|e t1 IH]; [reflexivity|].
  destruct e; simpl; rewrite IH; reflexivity.
Qed.

Lemma seq_Some (c1 c2 : cmd) (w w' : world) :
  c1 w = Some w' -> (c1 >> c2) w = c2 w'.
Proof. intros H. unfold seq. rewrite H. reflexivity. Qed.

Lemma wf_inv (w : world) :
  wf w ->
  exists r0 r1 r2 r3 tr, w = {| relay_states := [r0; r1; r2; r3]; trace := tr |}.
Proof.
  destruct w as [rs tr]. unfold wf. simpl. intros H.
  destruct rs as [|r0 [|r1 [|r2 [|r3 [|r4 rs]]]]]; simpl in H; try discriminate.
  exists r0, r1, r2, r3, tr. reflexivity.
Qed.

Lemma power_on_wf : wf power_on.
Proof. reflexivity. Qed.

(** Splits an index known to lie in 1..4 into its four values. *)
Ltac relay_cases id :=
  let H := fresh "Hid" in
  assert (H : id = 1 \/ id = 2 \/ id = 3 \/ id = 4) by lia;
  destruct H as [H | [H | [H | H]]]; subst id.

(** Replaces a well-formed world by an explicit four-slot one. *)
Ltac explicit_world w Hwf :=
  let r0 := fresh "r0" in let r1 := fresh "r1" in
  let r2 := fresh "r2" in let r3 := fresh "r3" in
  let tr := fresh "tr" in
  destruct (wf_inv w Hwf) as (r0 & r1 & r2 & r3 & tr & ->).

(** Runs a straight-line command on an explicit world. *)
Ltac step_cmd :=
  unfold seq, store_relay_state, print_relay_states, load_relay_state,
         gpio_put, printf, emit, skip, set_relay_events; simpl.

(** ** Running [set_relay] *)

Lemma set_relay_out_of_range (id : Z) (on : bool) (w : world) :
  id < 1 \/ 4 < id -> set_relay id on w = Some w.
Proof.
  intros H. unfold set_relay.
  replace ((id <? 1) || (id >? 4)) with true; [reflexivity|].
  symmetry. apply orb_true_iff.
  destruct H; [left; apply Z.ltb_lt | right; apply Z.gtb_lt]; lia.
Qed.

Lemma set_relay_in_range (id : Z) (on : bool) (w : world) :
  wf w -> 1 <= id <= 4 ->
  set_relay id on w =
  Some {| relay_states := <[Z.to_nat (id - 1) := on]> (relay_states w);
          trace := trace w ++
                   set_relay_events id on
                     (<[Z.to_nat (id - 1) := on]> (relay_states w)) |}.
Proof.
  intros Hwf Hid. explicit_world w Hwf.
  relay_cases id; unfold set_relay; simpl; step_cmd;
    rewrite <- !app_assoc; reflexivity.
Qed.

Lemma set_relay_wf (id : Z) (on : bool) (w w' : world) :
  wf w -> set_relay id on w = Some w' -> wf w'.
Proof.
  intros Hwf H.
  destruct (Z_lt_dec id 1) as [Hlo|Hlo];
    [rewrite set_relay_out_of_range in H by lia; congruence|].
  destruct (Z_lt_dec 4 id) as [Hhi|Hhi];
    [rewrite set_relay_out_of_range in H by lia; congruence|].
  rewrite set_relay_in_range in H by (assumption || lia).
  inversion H; subst w'. unfold wf in *. simpl.
  rewrite length_insert. exact Hwf.
Qed.

(** * The relay engine *)

(** C5. For every id in 1..4, every on-value and every prior state,
    [set_relay id on] returns normally and afterwards slot [id-1] of the
    state array holds [on]; the state report it prints last shows the same
    value in that slot. *)
Theorem set_relay_then_get_states (id : Z) (on : bool) (w : world) :
  wf w -> 1 <= id <= 4 ->
  exists w' report,
    set_relay id on w = Some w' /\
    relay_states w' !! Z.to_nat (id - 1) = Some on /\
    last (trace w') =
      Some (Printf "Relay States: [1:%s] [2:%s] [3:%s] [4:%s]\r\n" report) /\
    report !! Z.to_nat (id - 1) = Some (ArgS (on_off_padded on)).
Proof.
  intros Hwf Hid.
  rewrite set_relay_in_range by assumption.
  eexists _, (relay_states_report (<[Z.to_nat (id - 1) := on]> (relay_states w))).
  split; [reflexivity|]. simpl.
  split; [apply list_lookup_insert_eq; unfold wf in Hwf; lia|].
  split.
  - unfold set_relay_events.
    match goal with
    | |- last (?t ++ [?a; ?b; ?c]) = _ =>
        change (t ++ [a; b; c]) with (t ++ [a; b] ++ [c])
    end.
    rewrite app_assoc. apply last_snoc.
  - explicit_world w Hwf. relay_cases id; reflexivity.
Qed.

Lemma set_relay_then_get_states_witness :
  wf power_on /\ 1 <= 3 <= 4 /\
  exists w' report,
    set_relay 3 true power_on = Some w' /\
    relay_states w' !! Z.to_nat (3 - 1) = Some true /\
    last (trace w') =
      Some (Printf "Relay States: [1:%s] [2:%s] [3:%s] [4:%s]\r\n" report) /\
    report !! Z.to_nat (3 - 1) = Some (ArgS (on_off_padded true)).
Proof.
  split; [reflexivity|]. split; [lia|].
  apply (set_relay_then_get_states 3 true power_on); [reflexivity | lia].
Defined.

(** C10. For every id in 1..4, [set_relay id on] changes slot [id-1] only:
    the array keeps its four slots and every other slot keeps its value. *)
Theorem set_relay_frame (id : Z) (on : bool) (w : world) :
  wf w -> 1 <= id <= 4 ->
  exists w',
    set_relay id on w = Some w' /\
    length (relay_states w') = 4%nat /\
    forall j : nat,
      j <> Z.to_nat (id - 1) -> relay_states w' !! j = relay_states w !! j.
Proof.
  intros Hwf Hid.
  eexists. split; [apply set_relay_in_range; assumption|].
  simpl. split.
  - rewrite length_insert. exact Hwf.
  - intros j Hj. apply list_lookup_insert_ne. congruence.
Qed.

Lemma set_relay_frame_witness :
  wf power_on /\ 1 <= 2 <= 4 /\
  exists w',
    set_relay 2 true power_on = Some w' /\
    length (relay_states w') = 4%nat /\
    forall j : nat,
      j <> Z.to_nat (2 - 1) ->
      relay_states w' !! j = relay_states power_on !! j.
Proof.
  split; [reflexivity|]. split; [lia|].
  apply (set_relay_frame 2 true power_on); [reflexivity | lia].
Defined.

(** C4, as the code has it. For every id outside 1..4 and every on-value,
    [set_relay id on] returns normally and leaves the whole program state
    as it was: the state array is unchanged, no pin is written, and no
    line is printed -- the guard of main.c:87 returns before any output. *)
Theorem set_relay_invalid_id_noop (id : Z) (on : bool) (w : world) :
  id < 1 \/ 4 < id ->
  exists w',
    set_relay id on w = Some w' /\
    relay_states w' = relay_states w /\
    trace w' = trace w.
Proof.
  intros Hid. exists w.
  split; [apply set_relay_out_of_range; assumption|].
  split; reflexivity.
Qed.

Lemma set_relay_invalid_id_noop_witness :
  (5 < 1 \/ 4 < 5) /\
  exists w',
    set_relay 5 true power_on = Some w' /\
    relay_states w' = relay_states power_on /\
    trace w' = trace power_on.
Proof.
  split; [lia|].
  apply (set_relay_invalid_id_noop 5 true power_on); lia.
Defined.

(** C4, as the design document states it, fails: it asks that a diagnostic
    be logged for an invalid id.  [set_relay 0 true] from the reset state
    returns with the trace exactly as it was. *)
Lemma set_relay_invalid_id_logs_nothing :
  ~ (exists w',
       set_relay 0 true power_on = Some w' /\
       relay_states w' = relay_states power_on /\
       trace w' <> trace power_on).
Proof.
  intros (w' & Hrun & _ & Hlog).
  vm_compute in Hrun. inversion Hrun; subst w'.
  apply Hlog. reflexivity.
Qed.

(** * Locality and totality of the commands *)

Lemma local_skip : local skip.
Proof. intros rs tr. unfold skip, prepend. simpl. rewrite app_nil_r. reflexivity. Qed.

Lemma local_emit (e : event) : local (emit e).
Proof. intros rs tr. reflexivity. Qed.

Lemma local_store_relay_state (i : Z) (v : bool) : local (store_relay_state i v).
Proof.
  intros rs tr. unfold store_relay_state, prepend. simpl.
  destruct ((0 <=? i) && (i <? Z.of_nat (length rs))); simpl;
    [rewrite app_nil_r|]; reflexivity.
Qed.

Lemma local_print_relay_states : local print_relay_states.
Proof.
  intros rs tr. unfold print_relay_states, load_relay_state. simpl.
  destruct (rs !! 0%nat); [|reflexivity].
  destruct (rs !! 1%nat); [|reflexivity].
  destruct (rs !! 2%nat); [|reflexivity].
  destruct (rs !! 3%nat); reflexivity.
Qed.

Lemma local_seq (c1 c2 : cmd) : local c1 -> local c2 -> local (c1 >> c2).
Proof.
  intros H1 H2 rs tr. unfold seq. rewrite (H1 rs tr).
  destruct (c1 {| relay_states := rs; trace := [] |}) as [[rs1 t1]|];
    [|reflexivity].
  simpl. unfold prepend at 1. simpl.
  rewrite (H2 rs1 (tr ++ t1)), (H2 rs1 t1).
  destruct (c2 {| relay_states := rs1; trace := [] |}) as [[rs2 t2]|];
    [|reflexivity].
  simpl. unfold prepend. simpl. rewrite app_assoc. reflexivity.
Qed.

Lemma local_if (b : bool) (c1 c2 : cmd) :
  local c1 -> local c2 -> local (if b then c1 else c2).
Proof. destruct b; auto. Qed.

Create HintDb local_db.
#[local] Hint Resolve local_skip local_emit local_store_relay_state
  local_print_relay_states local_seq local_if : local_db.

Ltac prove_local :=
  unfold gpio_put, gpio_init, gpio_set_dir_out, printf;
  auto 30 with local_db.

Lemma local_set_relay (id : Z) (on : bool) : local (set_relay id on).
Proof. unfold set_relay. prove_local. Qed.

#[local] Hint Resolve local_set_relay : local_db.

Lemma local_process_midi_message
    (status data1 data2 : Z) (from_bluetooth : bool) :
  local (process_midi_message status data1 data2 from_bluetooth).
Proof. unfold process_midi_message. prove_local. Qed.

#[local] Hint Resolve local_process_midi_message : local_db.

Lemma total_skip : total skip.
Proof. intros w Hwf. exists w. split; [reflexivity | assumption]. Qed.

Lemma total_emit (e : event) : total (emit e).
Proof. intros w Hwf. eexists. split; [reflexivity | exact Hwf]. Qed.

Lemma total_seq (c1 c2 : cmd) : total c1 -> total c2 -> total (c1 >> c2).
Proof.
  intros H1 H2 w Hwf. destruct (H1 w Hwf) as (w1 & E1 & Hwf1).
  destruct (H2 w1 Hwf1) as (w2 & E2 & Hwf2).
  exists w2. split; [|assumption].
  rewrite (seq_Some _ _ _ _ E1). exact E2.
Qed.

Lemma total_if (b : bool) (c1 c2 : cmd) :
  total c1 -> total c2 -> total (if b then c1 else c2).
Proof. destruct b; auto. Qed.

Lemma total_set_relay (id : Z) (on : bool) : total (set_relay id on).
Proof.
  intros w Hwf.
  assert (Hrun : exists w', set_relay id on w = Some w').
  { destruct (Z_lt_dec id 1);
      [rewrite set_relay_out_of_range by lia; eauto|].
    destruct (Z_lt_dec 4 id);
      [rewrite set_relay_out_of_range by lia; eauto|].
    rewrite set_relay_in_range by (assumption || lia). eauto. }
  destruct Hrun as (w' & Hrun). exists w'.
  split; [assumption | eapply set_relay_wf; eassumption].
Qed.

Create HintDb total_db.
#[local] Hint Resolve total_skip total_emit total_seq total_if
  total_set_relay : total_db.

Lemma total_process_midi_message
    (status data1 data2 : Z) (from_bluetooth : bool) :
  total (process_midi_message status data1 data2 from_bluetooth).
Proof.
  unfold process_midi_message, printf. auto 30 with total_db.
Qed.

(** Runs the command applied in the goal on the empty history and
    evaluates it there. *)
Ltac localize :=
  match goal with
  | |- context [?c {| relay_states := ?rs; trace := ?tr |}] =>
      let H := fresh "Hlocal" in
      assert (H : local c) by prove_local;
      rewrite (H rs tr); clear H;
      let r := fresh "r" in
      set (r := c {| relay_states := rs; trace := [] |});
      vm_compute in r; subst r;
      cbn [fmap option_fmap option_map prepend relay_states trace]
  end.

(** * The command mapper: [process_midi_message] *)

(** Evaluates the comparisons between constants left in the goal. *)
Ltac eval_tests :=
  repeat match goal with
         | |- context [Z.eqb ?a ?b] =>
             let v := eval vm_compute in (Z.eqb a b) in
             match v with true => idtac | false => idtac end;
             change (Z.eqb a b) with v
         end;
  cbv iota.

(** Selects the branch of the outer [switch] from the high nibble. *)
Ltac enter_handler Hst :=
  unfold process_midi_message; rewrite Hst; eval_tests.

Lemma range_test_false (lo hi x : Z) :
  x < lo \/ hi < x -> (x >=? lo) && (x <=? hi) = false.
Proof.
  intros H. rewrite Z.geb_leb. apply andb_false_iff.
  destruct H; [left | right]; apply Z.leb_gt; lia.
Qed.

(** C1. A ProgramChange message (high nibble 0xC) run from any prior state
    returns normally.  Its pin writes start with "off" for the four relays
    in order.  With [data1] in 0..3 one more write turns relay [data1+1]
    on, and afterwards relay [j] is on exactly when [j = data1+1]; with
    any other [data1] nothing more is written and all four relays are
    off. *)
Theorem program_change_exclusive_select
    (status data1 data2 : Z) (from_bluetooth : bool) (w : world) :
  wf w -> Z.land status 0xF0 = MIDI_PROGRAM_CHANGE ->
  exists w',
    process_midi_message status data1 data2 from_bluetooth w = Some w' /\
    length (relay_states w') = 4%nat /\
    (forall j : Z, 1 <= j <= 4 ->
       relay_states w' !! Z.to_nat (j - 1) =
       Some ((0 <=? data1) && (data1 <=? 3) && (j =? data1 + 1))) /\
    gpio_writes (trace w') =
      gpio_writes (trace w) ++
      [(RELAY_1_PIN, false); (RELAY_2_PIN, false);
       (RELAY_3_PIN, false); (RELAY_4_PIN, false)] ++
      (if (0 <=? data1) && (data1 <=? 3)
       then [(RELAY_1_PIN + data1, true)] else []).
Proof.
  intros Hwf Hst. explicit_world w Hwf.
  destruct (Z_le_dec 0 data1) as [Hlo|Hlo];
    [destruct (Z_le_dec data1 3) as [Hhi|Hhi]|].
  - assert (Hd : data1 = 0 \/ data1 = 1 \/ data1 = 2 \/ data1 = 3) by lia.
    destruct Hd as [Hd | [Hd | [Hd | Hd]]]; subst data1;
      enter_handler Hst; localize;
      (eexists; split; [reflexivity|]; simpl;
       split; [reflexivity|];
       split; [intros j Hj; relay_cases j; reflexivity|];
       rewrite gpio_writes_app; reflexivity).
  - enter_handler Hst. rewrite range_test_false by lia. localize.
    eexists; split; [reflexivity|]; simpl.
    split; [reflexivity|].
    replace (data1 <=? 3) with false by (symmetry; apply Z.leb_gt; lia).
    rewrite andb_false_r.
    split; [intros j Hj; relay_cases j; reflexivity|].
    rewrite gpio_writes_app; reflexivity.
  - enter_handler Hst. rewrite range_test_false by lia. localize.
    eexists; split; [reflexivity|]; simpl.
    split; [reflexivity|].
    replace (0 <=? data1) with false by (symmetry; apply Z.leb_gt; lia).
    split; [intros j Hj; relay_cases j; reflexivity|].
    rewrite gpio_writes_app; reflexivity.
Qed.

Lemma program_change_exclusive_select_witness :
  wf power_on /\ Z.land 0xC5 0xF0 = MIDI_PROGRAM_CHANGE /\
  exists w',
    process_midi_message 0xC5 2 0 true power_on = Some w' /\
    length (relay_states w') = 4%nat /\
    (forall j : Z, 1 <= j <= 4 ->
       relay_states w' !! Z.to_nat (j - 1) =
       Some ((0 <=? 2) && (2 <=? 3) && (j =? 2 + 1))) /\
    gpio_writes (trace w') =
      gpio_writes (trace power_on) ++
      [(RELAY_1_PIN, false); (RELAY_2_PIN, false);
       (RELAY_3_PIN, false); (RELAY_4_PIN, false)] ++
      (if (0 <=? 2) && (2 <=? 3)
       then [(RELAY_1_PIN + 2, true)] else []).
Proof.
  split; [reflexivity|]. split; [reflexivity|].
  apply (program_change_exclusive_select 0xC5 2 0 true power_on);
    reflexivity.
Defined.

Example program_change_2 (r0 r1 r2 r3 : bool) (tr : list event) :
  relay_states <$>
    process_midi_message 0xC0 2 0 false
      {| relay_states := [r0; r1; r2; r3]; trace := tr |}
  = Some [false; false; true; false].
Proof. reflexivity. Qed.

Example program_change_9 (r0 r1 r2 r3 : bool) (tr : list event) :
  relay_states <$>
    process_midi_message 0xC0 9 0 false
      {| relay_states := [r0; r1; r2; r3]; trace := tr |}
  = Some [false; false; false; false].
Proof. reflexivity. Qed.

(** C2. A ControlChange message (high nibble 0xB) run from any prior state
    returns normally.  With [data1] in 1..4 the state array afterwards is
    the prior one with slot [data1-1] set to the outcome of
    [data2 >= 64]; with any other [data1] the array is unchanged. *)
Theorem control_change_threshold
    (status data1 data2 : Z) (from_bluetooth : bool) (w : world) :
  wf w -> Z.land status 0xF0 = MIDI_CC ->
  exists w',
    process_midi_message status data1 data2 from_bluetooth w = Some w' /\
    relay_states w' =
      (if (1 <=? data1) && (data1 <=? 4)
       then <[Z.to_nat (data1 - 1) := (64 <=? data2)]> (relay_states w)
       else relay_states w) /\
    (1 <= data1 <= 4 ->
     relay_states w' !! Z.to_nat (data1 - 1) = Some (64 <=? data2)).
Proof.
  intros Hwf Hst. enter_handler Hst.
  unfold seq, printf, emit. rewrite !Z.geb_leb.
  destruct ((1 <=? data1) && (data1 <=? 4)) eqn:Hrange.
  - apply andb_true_iff in Hrange. destruct Hrange as [H1 H4].
    apply Z.leb_le in H1. apply Z.leb_le in H4.
    rewrite set_relay_in_range by (assumption || lia).
    eexists; split; [reflexivity|]. simpl.
    split; [reflexivity|].
    intros _. apply list_lookup_insert_eq. unfold wf in Hwf. lia.
  - eexists; split; [reflexivity|]. simpl.
    split; [reflexivity|].
    intros H. apply andb_false_iff in Hrange.
    destruct Hrange as [Hr|Hr]; apply Z.leb_gt in Hr; lia.
Qed.

Lemma control_change_threshold_witness :
  wf power_on /\ Z.land 0xB3 0xF0 = MIDI_CC /\ 1 <= 2 <= 4 /\
  exists w',
    process_midi_message 0xB3 2 64 false power_on = Some w' /\
    relay_states w' = [false; true; false; false] /\
    relay_states w' !! Z.to_nat (2 - 1) = Some (64 <=? 64).
Proof.
  split; [reflexivity|]. split; [reflexivity|]. split; [lia|].
  destruct (control_change_threshold 0xB3 2 64 false power_on)
    as (w' & E & Hrs & Hslot); [reflexivity | reflexivity |].
  exists w'. split; [exact E|]. split; [exact Hrs|].
  apply Hslot. lia.
Defined.

(** The boundary of the threshold: 63 switches off, 64 switches on. *)
Example control_change_2_63 (r0 r1 r2 r3 : bool) (tr : list event) :
  relay_states <$>
    process_midi_message 0xB0 2 63 false
      {| relay_states := [r0; r1; r2; r3]; trace := tr |}
  = Some [r0; false; r2; r3].
Proof. reflexivity. Qed.

Example control_change_2_64 (r0 r1 r2 r3 : bool) (tr : list event) :
  relay_states <$>
    process_midi_message 0xB0 2 64 false
      {| relay_states := [r0; r1; r2; r3]; trace := tr |}
  = Some [r0; true; r2; r3].
Proof. reflexivity. Qed.

Lemma lookup_note_spec (note : Z) :
  lookup_note note =
  if note =? RELAY_1_NOTE then Some 1
  else if note =? RELAY_2_NOTE then Some 2
  else if note =? RELAY_3_NOTE then Some 3
  else if note =? RELAY_4_NOTE then Some 4
  else None.
Proof.
  unfold lookup_note, note_table. cbn [find fst snd].
  unfold RELAY_1_NOTE, RELAY_2_NOTE, RELAY_3_NOTE, RELAY_4_NOTE.
  rewrite (Z.eqb_sym 60 note), (Z.eqb_sym 61 note),
          (Z.eqb_sym 62 note), (Z.eqb_sym 63 note).
  destruct (note =? 60); [reflexivity|].
  destruct (note =? 61); [reflexivity|].
  destruct (note =? 62); [reflexivity|].
  destruct (note =? 63); reflexivity.
Qed.

(** C3. A NoteOn (high nibble 0x9) or NoteOff (high nibble 0x8) message
    run from any prior state returns normally.  If [data1] is in the note
    table, the mapped relay is set -- to on for a NoteOn with [data2 > 0],
    to off for a NoteOn with [data2 = 0] and for every NoteOff, whatever
    its [data2] -- and otherwise the state array is unchanged. *)
Theorem note_messages_follow_table
    (status data1 data2 : Z) (from_bluetooth : bool) (w : world) :
  wf w ->
  Z.land status 0xF0 = MIDI_NOTE_ON \/ Z.land status 0xF0 = MIDI_NOTE_OFF ->
  exists w',
    process_midi_message status data1 data2 from_bluetooth w = Some w' /\
    relay_states w' =
      match lookup_note data1 with
      | Some id =>
          <[Z.to_nat (id - 1) :=
              (Z.land status 0xF0 =? MIDI_NOTE_ON) && (0 <? data2)]>
            (relay_states w)
      | None => relay_states w
      end.
Proof.
  intros Hwf Hst. explicit_world w Hwf. rewrite lookup_note_spec.
  destruct Hst as [Hst|Hst]; enter_handler Hst;
    rewrite ?Z.gtb_ltb; destruct (0 <? data2);
    (destruct (Z.eqb_spec data1 RELAY_1_NOTE) as [->|N1];
     [|destruct (Z.eqb_spec data1 RELAY_2_NOTE) as [->|N2];
       [|destruct (Z.eqb_spec data1 RELAY_3_NOTE) as [->|N3];
         [|destruct (Z.eqb_spec data1 RELAY_4_NOTE) as [->|N4]]]]);
    eval_tests; localize;
    eexists; (split; [reflexivity|]); reflexivity.
Qed.

Lemma note_messages_follow_table_witness :
  wf power_on /\
  (Z.land 0x91 0xF0 = MIDI_NOTE_ON \/ Z.land 0x91 0xF0 = MIDI_NOTE_OFF) /\
  exists w',
    process_midi_message 0x91 61 100 true power_on = Some w' /\
    relay_states w' =
      match lookup_note 61 with
      | Some id =>
          <[Z.to_nat (id - 1) :=
              (Z.land 0x91 0xF0 =? MIDI_NOTE_ON) && (0 <? 100)]>
            (relay_states power_on)
      | None => relay_states power_on
      end.
Proof.
  split; [reflexivity|]. split; [left; reflexivity|].
  apply (note_messages_follow_table 0x91 61 100 true power_on);
    [reflexivity | left; reflexivity].
Defined.

Example note_on_60_velocity_100 (r0 r1 r2 r3 : bool) (tr : list event) :
  relay_states <$>
    process_midi_message 0x90 60 100 false
      {| relay_states := [r0; r1; r2; r3]; trace := tr |}
  = Some [true; r1; r2; r3].
Proof. reflexivity. Qed.

Example note_on_60_velocity_0 (r0 r1 r2 r3 : bool) (tr : list event) :
  relay_states <$>
    process_midi_message 0x90 60 0 false
      {| relay_states := [r0; r1; r2; r3]; trace := tr |}
  = Some [false; r1; r2; r3].
Proof. reflexivity. Qed.

Example busy_script_first_pass :
  (fun r => (length (usb_pending (fst r)), length (ble_pending (fst r)),
             relay_states (snd r)))
    <$> main_loop scripted_sdk 1 busy_script power_on
  = Some (2%nat, 0%nat, [true; false; false; false]).
Proof. vm_compute. reflexivity. Qed.

(** * Independence from source and channel *)

Lemma same_relays_refl (w : world) : same_relays w w.
Proof. split; reflexivity. Qed.

Lemma agree_skip : agree skip skip.
Proof. intros w1 w2 H. constructor. exact H. Qed.

Lemma agree_printf (f1 f2 : string) (a1 a2 : list printf_arg) :
  agree (printf f1 a1) (printf f2 a2).
Proof.
  intros w1 w2 [Hrs Hgp]. constructor. split; simpl; [exact Hrs|].
  rewrite !gpio_writes_app. simpl. rewrite !app_nil_r. exact Hgp.
Qed.

Lemma agree_gpio_put (pin : Z) (v : bool) :
  agree (gpio_put pin v) (gpio_put pin v).
Proof.
  intros w1 w2 [Hrs Hgp]. constructor. split; simpl; [exact Hrs|].
  rewrite !gpio_writes_app, Hgp. reflexivity.
Qed.

Lemma agree_store_relay_state (i : Z) (v : bool) :
  agree (store_relay_state i v) (store_relay_state i v).
Proof.
  intros w1 w2 [Hrs Hgp]. unfold store_relay_state. rewrite Hrs.
  destruct ((0 <=? i) && (i <? Z.of_nat (length (relay_states w2))));
    constructor.
  split; simpl; [reflexivity | exact Hgp].
Qed.

Lemma agree_print_relay_states : agree print_relay_states print_relay_states.
Proof.
  intros w1 w2 [Hrs Hgp]. unfold print_relay_states, load_relay_state.
  rewrite Hrs.
  destruct (relay_states w2 !! 0%nat); [|constructor].
  destruct (relay_states w2 !! 1%nat); [|constructor].
  destruct (relay_states w2 !! 2%nat); [|constructor].
  destruct (relay_states w2 !! 3%nat); [|constructor].
  apply agree_printf. split; assumption.
Qed.

Lemma agree_seq (c1 c2 d1 d2 : cmd) :
  agree c1 d1 -> agree c2 d2 -> agree (c1 >> c2) (d1 >> d2).
Proof.
  intros H1 H2 w1 w2 Hw. unfold seq.
  destruct (H1 w1 w2 Hw) as [w1' w2' Hw'|]; [apply H2; exact Hw' | constructor].
Qed.

Lemma agree_if (b : bool) (c1 c2 d1 d2 : cmd) :
  agree c1 d1 -> agree c2 d2 ->
  agree (if b then c1 else c2) (if b then d1 else d2).
Proof. destruct b; auto. Qed.

Create HintDb agree_db.
#[local] Hint Resolve agree_skip agree_printf agree_gpio_put
  agree_store_relay_state agree_print_relay_states agree_seq agree_if
  : agree_db.

Lemma agree_set_relay (id : Z) (on : bool) :
  agree (set_relay id on) (set_relay id on).
Proof. unfold set_relay. auto 30 with agree_db. Qed.

#[local] Hint Resolve agree_set_relay : agree_db.

Lemma agree_process_midi_message
    (status1 status2 data1 data2 : Z) (from_bt1 from_bt2 : bool) :
  Z.land status1 0xF0 = Z.land status2 0xF0 ->
  agree (process_midi_message status1 data1 data2 from_bt1)
        (process_midi_message status2 data1 data2 from_bt2).
Proof.
  intros Hst. unfold process_midi_message. rewrite Hst.
  auto 30 with agree_db.
Qed.

(** C6. Two messages with the same status high nibble, [data1] and
    [data2], run from the same prior state, both return, with the same
    state array and the same pin writes, whatever their channel nibbles
    and their [from_bluetooth] flags. *)
Theorem relay_effect_ignores_source_and_channel
    (status1 status2 data1 data2 : Z) (from_bt1 from_bt2 : bool) (w : world) :
  wf w ->
  Z.land status1 0xF0 = Z.land status2 0xF0 ->
  exists w1 w2,
    process_midi_message status1 data1 data2 from_bt1 w = Some w1 /\
    process_midi_message status2 data1 data2 from_bt2 w = Some w2 /\
    relay_states w1 = relay_states w2 /\
    gpio_writes (trace w1) = gpio_writes (trace w2).
Proof.
  intros Hwf Hst.
  destruct (total_process_midi_message status1 data1 data2 from_bt1 w Hwf)
    as (w1 & E1 & _).
  destruct (total_process_midi_message status2 data1 data2 from_bt2 w Hwf)
    as (w2 & E2 & _).
  exists w1, w2. split; [assumption|]. split; [assumption|].
  pose proof (agree_process_midi_message status1 status2 data1 data2
                from_bt1 from_bt2 Hst w w (same_relays_refl w)) as H.
  rewrite E1, E2 in H. inversion H as [? ? [Hrs Hgp]|]; subst.
  split; assumption.
Qed.

Lemma relay_effect_ignores_source_and_channel_witness :
  wf power_on /\ Z.land 0x90 0xF0 = Z.land 0x9F 0xF0 /\
  exists w1 w2,
    process_midi_message 0x90 62 127 false power_on = Some w1 /\
    process_midi_message 0x9F 62 127 true power_on = Some w2 /\
    relay_states w1 = relay_states w2 /\
    gpio_writes (trace w1) = gpio_writes (trace w2).
Proof.
  split; [reflexivity|]. split; [reflexivity|].
  apply (relay_effect_ignores_source_and_channel
           0x90 0x9F 62 127 false true power_on); reflexivity.
Defined.

(** * Totality *)

(** C7. For every byte triple and either source, run from any prior
    state, [process_midi_message] returns, in a state whose array still
    has four slots.  When the status high nibble is none of 0x8, 0x9, 0xB
    and 0xC, the state array is unchanged, no pin is written, and the one
    thing done is to print the "Unknown MIDI" line. *)
Theorem process_total_unknown_inert
    (status data1 data2 : Z) (from_bluetooth : bool) (w : world) :
  wf w -> uint8 status -> uint8 data1 -> uint8 data2 ->
  exists w',
    process_midi_message status data1 data2 from_bluetooth w = Some w' /\
    wf w' /\
    (Z.land status 0xF0 <> MIDI_NOTE_OFF ->
     Z.land status 0xF0 <> MIDI_NOTE_ON ->
     Z.land status 0xF0 <> MIDI_CC ->
     Z.land status 0xF0 <> MIDI_PROGRAM_CHANGE ->
     relay_states w' = relay_states w /\
     trace w' =
       trace w ++
       [Printf "[%s] Unknown MIDI: 0x%02X 0x%02X 0x%02X\r\n"
          [ArgS (if from_bluetooth then "BT" else "USB");
           ArgX status; ArgX data1; ArgX data2]]).
Proof.
  intros Hwf _ _ _.
  destruct (total_process_midi_message status data1 data2 from_bluetooth w Hwf)
    as (w' & E & Hwf').
  exists w'. split; [assumption|]. split; [assumption|].
  intros N8 N9 NB NC. revert E. unfold process_midi_message.
  apply Z.eqb_neq in N8, N9, NB, NC. rewrite N8, N9, NB, NC.
  unfold printf, emit. intros E. inversion E; subst w'. simpl.
  split; reflexivity.
Qed.

Lemma process_total_unknown_inert_witness :
  wf power_on /\ uint8 0xF8 /\ uint8 0 /\ uint8 0 /\
  exists w',
    process_midi_message 0xF8 0 0 true power_on = Some w' /\
    wf w' /\
    relay_states w' = relay_states power_on /\
    trace w' =
      trace power_on ++
      [Printf "[%s] Unknown MIDI: 0x%02X 0x%02X 0x%02X\r\n"
         [ArgS "BT"; ArgX 0xF8; ArgX 0; ArgX 0]].
Proof.
  assert (Hb : forall z, 0 <= z < 256 -> uint8 z) by (intros z H; exact H).
  split; [reflexivity|].
  split; [apply Hb; lia|]. split; [apply Hb; lia|]. split; [apply Hb; lia|].
  destruct (process_total_unknown_inert 0xF8 0 0 true power_on)
    as (w' & E & Hwf' & Hinert);
    [reflexivity | apply Hb; lia | apply Hb; lia | apply Hb; lia |].
  exists w'. split; [exact E|]. split; [exact Hwf'|].
  apply Hinert; vm_compute; discriminate.
Defined.

(** * The polling loop *)

Lemma zero_padded_payload (n : Z) (buf : ble_buffer) :
  1 <= n <= 3 ->
  zero_padded (ble_payload n buf) =
  (ble_packet_0 buf,
   if 2 <=? n then ble_packet_1 buf else 0,
   if 3 <=? n then ble_packet_2 buf else 0).
Proof.
  intros Hn. assert (H : n = 1 \/ n = 2 \/ n = 3) by lia.
  destruct H as [-> | [-> | ->]]; reflexivity.
Qed.

(** The BLE check, by the number of bytes the read call returns. *)
Lemma main_ble_check_by_count
    {env : Type} (K : sdk env) (e e1 e2 : env)
    (n : Z) (buf : ble_buffer) (w : world) :
  ble_midi_server_is_connected K e = (true, e1) ->
  ble_midi_server_stream_read K 3 e1 = ((n, buf), e2) ->
  0 <= n <= 3 ->
  let w0 := after_calls [BleMidiServerIsConnected; BleMidiServerStreamRead] w in
  let status := ble_packet_0 buf in
  let data1 := if 2 <=? n then ble_packet_1 buf else 0 in
  let data2 := if 3 <=? n then ble_packet_2 buf else 0 in
  if n =? 0
  then main_ble_check K e w = Some (e2, w0)
  else zero_padded (ble_payload n buf) = (status, data1, data2) /\
       main_ble_check K e w =
       (fun w' => (e2, w')) <$> process_midi_message status data1 data2 true w0.
Proof.
  intros Hconn Hread Hn w0 status data1 data2.
  subst w0 status data1 data2.
  unfold main_ble_check. rewrite Hconn, Hread.
  unfold after_calls. cbn [map].
  assert (H : n = 0 \/ n = 1 \/ n = 2 \/ n = 3) by lia.
  destruct H as [-> | [-> | [-> | ->]]];
    cbn -[process_midi_message]; rewrite <- app_assoc; cbn [app].
  - reflexivity.
  - split; [reflexivity|].
    destruct (process_midi_message _ _ _ _ _); reflexivity.
  - split; [reflexivity|].
    destruct (process_midi_message _ _ _ _ _); reflexivity.
  - split; [reflexivity|].
    destruct (process_midi_message _ _ _ _ _); reflexivity.
Qed.

(** C8. When the BLE session is connected and the read call returns [n]
    bytes with [n] in 1..3, the BLE check makes one call of
    [process_midi_message], from the Bluetooth source, on the received
    payload zero-padded to three bytes: status is byte 0, [data1] is
    byte 1 if [n >= 2] and 0 otherwise, [data2] is byte 2 if [n >= 3] and
    0 otherwise, whatever the rest of the buffer holds.  When the read
    returns 0 bytes, the check makes its two SDK calls and nothing
    else. *)
Theorem ble_frame_zero_padded
    {env : Type} (K : sdk env) (e e1 e2 : env)
    (n : Z) (buf : ble_buffer) (w : world) :
  ble_midi_server_is_connected K e = (true, e1) ->
  ble_midi_server_stream_read K 3 e1 = ((n, buf), e2) ->
  0 <= n <= 3 ->
  let w0 := after_calls [BleMidiServerIsConnected; BleMidiServerStreamRead] w in
  let status := ble_packet_0 buf in
  let data1 := if 2 <=? n then ble_packet_1 buf else 0 in
  let data2 := if 3 <=? n then ble_packet_2 buf else 0 in
  if n =? 0
  then main_ble_check K e w = Some (e2, w0)
  else zero_padded (ble_payload n buf) = (status, data1, data2) /\
       main_ble_check K e w =
       (fun w' => (e2, w')) <$> process_midi_message status data1 data2 true w0.
Proof.
  intros Hconn Hread Hn. exact (main_ble_check_by_count K e e1 e2 n buf w Hconn Hread Hn).
Qed.

Lemma ble_frame_zero_padded_witness :
  ble_midi_server_is_connected scripted_sdk ble_only_script
    = (true, ble_only_script) /\
  ble_midi_server_stream_read scripted_sdk 3 ble_only_script
    = ((1, BleBuffer 0xC0 0xAA 0xAA), idle_script) /\
  0 <= 1 <= 3 /\
  zero_padded (ble_payload 1 (BleBuffer 0xC0 0xAA 0xAA)) = (0xC0, 0, 0) /\
  main_ble_check scripted_sdk ble_only_script power_on =
  (fun w' => (idle_script, w')) <$>
    process_midi_message 0xC0 0 0 true
      (after_calls [BleMidiServerIsConnected; BleMidiServerStreamRead]
         power_on).
Proof.
  split; [reflexivity|]. split; [reflexivity|]. split; [lia|].
  apply (ble_frame_zero_padded scripted_sdk ble_only_script ble_only_script
           idle_script 1 (BleBuffer 0xC0 0xAA 0xAA) power_on);
    [reflexivity | reflexivity | lia].
Defined.

Example ble_one_byte_program_change :
  (fun r => relay_states (snd r))
    <$> main_ble_check scripted_sdk ble_only_script
          {| relay_states := [false; true; true; false]; trace := [] |}
  = Some [true; false; false; false].
Proof. vm_compute. reflexivity. Qed.

(** ** Counting what a command emits *)

Lemma count_app (f : event -> bool) (t1 t2 : list event) :
  count f (t1 ++ t2) = (count f t1 + count f t2)%nat.
Proof. unfold count. rewrite List.filter_app, List.length_app. reflexivity. Qed.

Lemma emits_skip (f : event -> bool) : emits f 0 skip.
Proof. intros rs w' H. inversion H. reflexivity. Qed.

Lemma emits_emit_quiet (f : event -> bool) (e : event) :
  f e = false -> emits f 0 (emit e).
Proof.
  intros Hf rs w' H. inversion H. unfold count. simpl. rewrite Hf. reflexivity.
Qed.

Lemma emits_emit_hit (f : event -> bool) (e : event) :
  f e = true -> emits f 1 (emit e).
Proof.
  intros Hf rs w' H. inversion H. unfold count. simpl. rewrite Hf. reflexivity.
Qed.

Lemma emits_store_relay_state (f : event -> bool) (i : Z) (v : bool) :
  emits f 0 (store_relay_state i v).
Proof.
  intros rs w'. unfold store_relay_state. simpl.
  destruct ((0 <=? i) && (i <? Z.of_nat (length rs))); intros H;
    inversion H. reflexivity.
Qed.

Lemma emits_print_relay_states (f : event -> bool) :
  ignores_engine f -> emits f 0 print_relay_states.
Proof.
  intros (_ & _ & Hf) rs w'. unfold print_relay_states, load_relay_state.
  simpl.
  destruct (rs !! 0%nat); [|discriminate].
  destruct (rs !! 1%nat); [|discriminate].
  destruct (rs !! 2%nat); [|discriminate].
  destruct (rs !! 3%nat); [|discriminate].
  intros H. inversion H. unfold count. simpl. rewrite Hf. reflexivity.
Qed.

Lemma emits_seq (f : event -> bool) (n1 n2 : nat) (c1 c2 : cmd) :
  local c2 -> emits f n1 c1 -> emits f n2 c2 ->
  emits f (n1 + n2) (c1 >> c2).
Proof.
  intros L2 H1 H2 rs w'. unfold seq.
  destruct (c1 {| relay_states := rs; trace := [] |}) as [[rs1 t1]|] eqn:E1;
    [|discriminate].
  rewrite (L2 rs1 t1).
  destruct (c2 {| relay_states := rs1; trace := [] |}) as [[rs2 t2]|] eqn:E2;
    [|discriminate].
  intros H. inversion H. simpl. rewrite count_app.
  pose proof (H1 _ _ E1) as A1. pose proof (H2 _ _ E2) as A2.
  simpl in A1, A2. rewrite A1, A2. reflexivity.
Qed.

Lemma emits_if (f : event -> bool) (n : nat) (b : bool) (c1 c2 : cmd) :
  emits f n c1 -> emits f n c2 -> emits f n (if b then c1 else c2).
Proof. destruct b; auto. Qed.

(** Closes [emits f 0 c] for a command built from engine steps. *)
Ltac prove_quiet Hf :=
  repeat first
    [ apply emits_skip
    | apply emits_store_relay_state
    | apply (emits_print_relay_states _ Hf)
    | apply emits_if
    | apply (emits_seq _ 0 0); [prove_local | |]
    | apply emits_emit_quiet;
      first [ apply (proj1 Hf) | apply (proj1 (proj2 Hf)) ] ].

Lemma emits_set_relay (f : event -> bool) (id : Z) (on : bool) :
  ignores_engine f -> emits f 0 (set_relay id on).
Proof.
  intros Hf. unfold set_relay, gpio_put, printf. prove_quiet Hf.
Qed.

(** A handler run emits its first line once and, beyond it, engine events
    only. *)
Lemma emits_process_midi_message
    (f : event -> bool) (b : bool)
    (status data1 data2 : Z) (from_bluetooth : bool) :
  ignores_engine f ->
  (forall fmt args,
     f (Printf fmt (ArgS (if from_bluetooth then "BT" else "USB") :: args)) = b) ->
  emits f (if b then 1 else 0)
    (process_midi_message status data1 data2 from_bluetooth).
Proof.
  intros Hf Hhead. unfold process_midi_message, printf.
  destruct b;
    repeat first
      [ apply emits_set_relay; exact Hf
      | apply emits_if
      | apply (emits_seq _ 1 0);
        [prove_local | apply emits_emit_hit; apply Hhead |]
      | apply (emits_seq _ 0 0);
        [prove_local | apply emits_emit_quiet; apply Hhead |]
      | apply emits_emit_hit; apply Hhead
      | apply emits_emit_quiet; apply Hhead
      | apply emits_skip
      | apply emits_emit_quiet; apply (proj1 (proj2 Hf))
      | apply (emits_seq _ 0 0); [prove_local | |] ].
Qed.

Lemma ignores_engine_usb_read : ignores_engine is_usb_read.
Proof. repeat split. Qed.

Lemma ignores_engine_ble_read : ignores_engine is_ble_read.
Proof. repeat split. Qed.

Lemma ignores_engine_dispatch_usb : ignores_engine (is_dispatch "USB").
Proof. repeat split. intros fmt [|] args; reflexivity. Qed.

Lemma ignores_engine_dispatch_bt : ignores_engine (is_dispatch "BT").
Proof. repeat split. intros fmt [|] args; reflexivity. Qed.

(** What one handler run adds to the trace: one dispatch line for its own
    source, none for the other, and no read call. *)
Lemma process_midi_message_run
    (status data1 data2 : Z) (from_bluetooth : bool) (w : world) :
  wf w ->
  exists w' evs,
    process_midi_message status data1 data2 from_bluetooth w = Some w' /\
    wf w' /\
    trace w' = trace w ++ evs /\
    process_midi_message status data1 data2 from_bluetooth
      {| relay_states := relay_states w; trace := [] |}
    = Some {| relay_states := relay_states w'; trace := evs |} /\
    count is_usb_read evs = 0%nat /\
    count is_ble_read evs = 0%nat /\
    count (is_dispatch "USB") evs = (if from_bluetooth then 0 else 1)%nat /\
    count (is_dispatch "BT") evs = (if from_bluetooth then 1 else 0)%nat.
Proof.
  intros Hwf.
  destruct (total_process_midi_message status data1 data2 from_bluetooth w Hwf)
    as (w' & E & Hwf').
  destruct w as [rs tr]. simpl.
  pose proof (local_process_midi_message status data1 data2 from_bluetooth
                rs tr) as Hloc.
  rewrite E in Hloc.
  destruct (process_midi_message status data1 data2 from_bluetooth
              {| relay_states := rs; trace := [] |}) as [[rs' evs]|] eqn:E0;
    [|discriminate].
  simpl in Hloc. inversion Hloc; subst w'. clear Hloc.
  exists (prepend tr {| relay_states := rs'; trace := evs |}), evs.
  split; [exact E|]. split; [exact Hwf'|]. split; [reflexivity|].
  split; [reflexivity|].
  split; [exact (emits_process_midi_message is_usb_read false _ _ _ _
                   ignores_engine_usb_read (fun _ _ => eq_refl) _ _ E0)|].
  split; [exact (emits_process_midi_message is_ble_read false _ _ _ _
                   ignores_engine_ble_read (fun _ _ => eq_refl) _ _ E0)|].
  destruct from_bluetooth.
  - split.
    + exact (emits_process_midi_message (is_dispatch "USB") false _ _ _ true
               ignores_engine_dispatch_usb (fun _ _ => eq_refl) _ _ E0).
    + exact (emits_process_midi_message (is_dispatch "BT") true _ _ _ true
               ignores_engine_dispatch_bt (fun _ _ => eq_refl) _ _ E0).
  - split.
    + exact (emits_process_midi_message (is_dispatch "USB") true _ _ _ false
               ignores_engine_dispatch_usb (fun _ _ => eq_refl) _ _ E0).
    + exact (emits_process_midi_message (is_dispatch "BT") false _ _ _ false
               ignores_engine_dispatch_bt (fun _ _ => eq_refl) _ _ E0).
Qed.

(** ** One pass through the loop body *)

Lemma main_usb_check_run {env : Type} (K : sdk env) (e : env) (w : world) :
  wf w ->
  exists e' w' evs,
    main_usb_check K e w = Some (e', w') /\
    wf w' /\
    trace w' = trace w ++ evs /\
    (count is_usb_read evs <= 1)%nat /\
    count is_ble_read evs = 0%nat /\
    (count (is_dispatch "USB") evs <= 1)%nat /\
    count (is_dispatch "BT") evs = 0%nat /\
    (forall e2 e3 packet,
       tud_midi_mounted K e = (true, e2) ->
       tud_midi_packet_read K e2 = (Some packet, e3) ->
       e' = e3 /\
       count (is_dispatch "USB") evs = 1%nat /\
       exists usb_evs,
         process_midi_message
           (packet_1 packet) (packet_2 packet) (packet_3 packet) false
           {| relay_states := relay_states w; trace := [] |}
         = Some {| relay_states := relay_states w'; trace := usb_evs |} /\
         evs = map Call [TudMidiMounted; TudMidiPacketRead] ++ usb_evs).
Proof.
  intros Hwf. unfold main_usb_check.
  destruct (tud_midi_mounted K e) as [[|] e2] eqn:Hm.
  - destruct (tud_midi_packet_read K e2) as [[p|] e3] eqn:Hr.
    + cbn -[process_midi_message].
      match goal with
      | |- context [process_midi_message _ _ _ _ ?w0] =>
          destruct (process_midi_message_run (packet_1 p) (packet_2 p)
                      (packet_3 p) false w0)
            as (w' & evs & E & Hwf' & Htr & E0 & Cu & Cb & Du & Db);
            [exact Hwf|]
      end.
      rewrite E. cbn -[process_midi_message] in *.
      exists e3, w', (map Call [TudMidiMounted; TudMidiPacketRead] ++ evs).
      split; [reflexivity|]. split; [exact Hwf'|].
      split; [rewrite Htr, <- !app_assoc; reflexivity|].
      rewrite !count_app, Cu, Cb, Du, Db.
      split; [vm_compute; lia|]. split; [reflexivity|].
      split; [vm_compute; lia|]. split; [reflexivity|].
      intros e2' e3' packet Hm' Hr'.
      inversion Hm'; subst e2'. rewrite Hr in Hr'. inversion Hr'; subst.
      split; [reflexivity|]. split; [reflexivity|].
      exists evs. split; [exact E0 | reflexivity].
    + cbn. eexists e3, _, (map Call [TudMidiMounted; TudMidiPacketRead]).
      split; [reflexivity|]. split; [exact Hwf|].
      split; [simpl; rewrite <- app_assoc; reflexivity|].
      split; [vm_compute; lia|]. split; [reflexivity|].
      split; [vm_compute; lia|]. split; [reflexivity|].
      intros e2' e3' packet Hm' Hr'.
      inversion Hm'; subst e2'. rewrite Hr in Hr'. discriminate.
  - cbn. eexists e2, _, (map Call [TudMidiMounted]).
    split; [reflexivity|]. split; [exact Hwf|].
    split; [reflexivity|].
    split; [vm_compute; lia|]. split; [reflexivity|].
    split; [vm_compute; lia|]. split; [reflexivity|].
    intros e2' e3' packet Hm' Hr'. discriminate.
Qed.

Lemma main_ble_check_run {env : Type} (K : sdk env) (e : env) (w : world) :
  wf w ->
  exists e' w' evs,
    main_ble_check K e w = Some (e', w') /\
    wf w' /\
    trace w' = trace w ++ evs /\
    count is_usb_read evs = 0%nat /\
    (count is_ble_read evs <= 1)%nat /\
    count (is_dispatch "USB") evs = 0%nat /\
    (count (is_dispatch "BT") evs <= 1)%nat /\
    (forall e2 e3 n buf status data1 data2,
       ble_midi_server_is_connected K e = (true, e2) ->
       ble_midi_server_stream_read K 3 e2 = ((n, buf), e3) ->
       1 <= n <= 3 ->
       zero_padded (ble_payload n buf) = (status, data1, data2) ->
       e' = e3 /\
       count (is_dispatch "BT") evs = 1%nat /\
       exists ble_evs,
         process_midi_message status data1 data2 true
           {| relay_states := relay_states w; trace := [] |}
         = Some {| relay_states := relay_states w'; trace := ble_evs |} /\
         evs = map Call [BleMidiServerIsConnected; BleMidiServerStreamRead]
               ++ ble_evs).
Proof.
  intros Hwf.
  destruct (ble_midi_server_is_connected K e) as [[|] e2] eqn:Hc.
  - destruct (ble_midi_server_stream_read K 3 e2) as [[n buf] e3] eqn:Hr.
    destruct (Z_le_dec 1 n) as [Hlo|Hlo];
      [destruct (Z_le_dec n 3) as [Hhi|Hhi]|].
    + pose proof (main_ble_check_by_count K e e2 e3 n buf w Hc Hr
                    ltac:(lia)) as Hrun.
      cbv zeta in Hrun.
      replace (n =? 0) with false in Hrun by (symmetry; apply Z.eqb_neq; lia).
      destruct Hrun as [Hpad Hrun]. rewrite Hrun.
      match goal with
      | |- context [process_midi_message ?s ?d1 ?d2 true ?w0] =>
          destruct (process_midi_message_run s d1 d2 true w0)
            as (w' & evs & E & Hwf' & Htr & E0 & Cu & Cb & Du & Db);
            [exact Hwf|]
      end.
      rewrite E. simpl.
      exists e3, w',
        (map Call [BleMidiServerIsConnected; BleMidiServerStreamRead] ++ evs).
      split; [reflexivity|]. split; [exact Hwf'|].
      split; [rewrite Htr; unfold after_calls; simpl;
              rewrite <- !app_assoc; reflexivity|].
      rewrite !count_app, Cu, Cb, Du, Db.
      split; [reflexivity|]. split; [vm_compute; lia|].
      split; [reflexivity|]. split; [vm_compute; lia|].
      intros e2' e3' n' buf' status data1 data2 Hc' Hr' Hn' Hpad'.
      inversion Hc'; subst e2'. rewrite Hr in Hr'. inversion Hr'; subst.
      rewrite Hpad in Hpad'. inversion Hpad'; subst.
      split; [reflexivity|]. split; [reflexivity|].
      exists evs. split; [exact E0 | reflexivity].
    + (* more bytes than the buffer holds: still one dispatch *)
      unfold main_ble_check. rewrite Hc, Hr. cbn -[process_midi_message].
      replace (n >? 0) with true by (symmetry; apply Z.gtb_lt; lia).
      replace (n >=? 1) with true by (symmetry; rewrite Z.geb_leb; apply Z.leb_le; lia).
      match goal with
      | |- context [process_midi_message ?s ?d1 ?d2 true ?w0] =>
          destruct (process_midi_message_run s d1 d2 true w0)
            as (w' & evs & E & Hwf' & Htr & E0 & Cu & Cb & Du & Db);
            [exact Hwf|]
      end.
      rewrite E. cbn -[process_midi_message] in *.
      exists e3, w',
        (map Call [BleMidiServerIsConnected; BleMidiServerStreamRead] ++ evs).
      split; [reflexivity|]. split; [exact Hwf'|].
      split; [rewrite Htr, <- !app_assoc; reflexivity|].
      rewrite !count_app, Cu, Cb, Du, Db.
      split; [reflexivity|]. split; [vm_compute; lia|].
      split; [reflexivity|]. split; [vm_compute; lia|].
      intros e2' e3' n' buf' status data1 data2 Hc' Hr' Hn' Hpad'.
      inversion Hc'; subst e2'. rewrite Hr in Hr'. inversion Hr'; subst. lia.
    + (* nothing read *)
      unfold main_ble_check. rewrite Hc, Hr. cbn -[process_midi_message].
      replace (n >? 0) with false by (symmetry; rewrite Z.gtb_ltb; apply Z.ltb_ge; lia).
      eexists e3, _,
        (map Call [BleMidiServerIsConnected; BleMidiServerStreamRead]).
      split; [reflexivity|]. split; [exact Hwf|].
      split; [simpl; rewrite <- app_assoc; reflexivity|].
      split; [reflexivity|]. split; [vm_compute; lia|].
      split; [reflexivity|]. split; [vm_compute; lia|].
      intros e2' e3' n' buf' status data1 data2 Hc' Hr' Hn' Hpad'.
      inversion Hc'; subst e2'. rewrite Hr in Hr'. inversion Hr'; subst. lia.
  - unfold main_ble_check. rewrite Hc. cbn.
    eexists e2, _, (map Call [BleMidiServerIsConnected]).
    split; [reflexivity|]. split; [exact Hwf|].
    split; [reflexivity|].
    split; [reflexivity|]. split; [vm_compute; lia|].
    split; [reflexivity|]. split; [vm_compute; lia|].
    intros e2' e3' n' buf' status data1 data2 Hc' Hr' Hn' Hpad'.
    discriminate.
Qed.

(** C9. One pass of the loop body, from any state and for any behaviour
    of the SDK, returns; in it each read function is called at most once
    and at most one message per transport is dispatched.  When USB is
    mounted with a packet to read and BLE is connected with a frame of
    1..3 bytes to read, the pass dispatches exactly one message from each,
    and its events are: the three USB-side calls, then everything the USB
    message's handler does, then the two BLE-side calls, then everything
    the BLE message's handler does starting from the relay state the USB
    handler left, then the two closing calls. *)
Theorem loop_iteration_fair
    {env : Type} (K : sdk env) (e : env) (w : world) :
  wf w ->
  exists e' w' evs,
    main_loop_body K e w = Some (e', w') /\
    wf w' /\
    trace w' = trace w ++ evs /\
    (count is_usb_read evs <= 1)%nat /\
    (count is_ble_read evs <= 1)%nat /\
    (count (is_dispatch "USB") evs <= 1)%nat /\
    (count (is_dispatch "BT") evs <= 1)%nat /\
    (forall e2 e3 e4 e5 packet n buf status data1 data2,
       tud_midi_mounted K (tud_task K e) = (true, e2) ->
       tud_midi_packet_read K e2 = (Some packet, e3) ->
       ble_midi_server_is_connected K e3 = (true, e4) ->
       ble_midi_server_stream_read K 3 e4 = ((n, buf), e5) ->
       1 <= n <= 3 ->
       zero_padded (ble_payload n buf) = (status, data1, data2) ->
       e' = sleep_ms K 1 (cyw43_arch_poll K e5) /\
       count (is_dispatch "USB") evs = 1%nat /\
       count (is_dispatch "BT") evs = 1%nat /\
       exists rs1 usb_evs ble_evs,
         process_midi_message
           (packet_1 packet) (packet_2 packet) (packet_3 packet) false
           {| relay_states := relay_states w; trace := [] |}
         = Some {| relay_states := rs1; trace := usb_evs |} /\
         process_midi_message status data1 data2 true
           {| relay_states := rs1; trace := [] |}
         = Some {| relay_states := relay_states w'; trace := ble_evs |} /\
         evs = map Call [TudTask; TudMidiMounted; TudMidiPacketRead]
               ++ usb_evs
               ++ map Call [BleMidiServerIsConnected; BleMidiServerStreamRead]
               ++ ble_evs
               ++ map Call [Cyw43ArchPoll; SleepMs 1]).
Proof.
  intros Hwf.
  destruct (main_usb_check_run K (tud_task K e) (after_calls [TudTask] w) Hwf)
    as (eu & wu & evs_u & Eu & Hwfu & Htru & Uu & Ub & Du & Db & Pu).
  destruct (main_ble_check_run K eu wu Hwfu)
    as (eb & wb & evs_b & Eb & Hwfb & Htrb & Bu & Bb & Gu & Gb & Pb).
  exists (sleep_ms K 1 (cyw43_arch_poll K eb)),
         (after_calls [Cyw43ArchPoll; SleepMs 1] wb),
         (map Call [TudTask] ++ evs_u ++ evs_b
          ++ map Call [Cyw43ArchPoll; SleepMs 1]).
  split.
  { unfold main_loop_body.
    change (emit (Call TudTask) w) with (Some (after_calls [TudTask] w)).
    cbn [mbind option_bind]. rewrite Eu. cbn [mbind option_bind].
    rewrite Eb. cbn [mbind option_bind]. unfold emit, after_calls.
    cbn [mbind option_bind relay_states trace map].
    rewrite <- app_assoc. reflexivity. }
  split; [exact Hwfb|].
  split.
  { unfold after_calls at 1. cbn [trace]. rewrite Htrb, Htru.
    unfold after_calls. cbn [trace]. rewrite <- !app_assoc. reflexivity. }
  rewrite !count_app, Ub, Bu, Gu, Db.
  split; [unfold count in *; simpl; lia|].
  split; [unfold count in *; simpl; lia|].
  split; [unfold count in *; simpl; lia|].
  split; [unfold count in *; simpl; lia|].
  intros e2 e3 e4 e5 packet n buf status data1 data2 Hm Hr Hc Hs Hn Hpad.
  destruct (Pu e2 e3 packet Hm Hr) as (-> & Du1 & usb_evs & Erun_u & ->).
  destruct (Pb e4 e5 n buf status data1 data2 Hc Hs Hn Hpad)
    as (-> & Gb1 & ble_evs & Erun_b & ->).
  split; [reflexivity|].
  split; [rewrite Du1; reflexivity|].
  split; [rewrite Gb1; reflexivity|].
  exists (relay_states wu), usb_evs, ble_evs.
  split; [exact Erun_u|]. split; [exact Erun_b|].
  cbn [map app]. rewrite <- ?app_assoc. reflexivity.
Qed.

Lemma loop_iteration_fair_witness :
  wf power_on /\
  tud_midi_mounted scripted_sdk (tud_task scripted_sdk busy_script)
    = (true, busy_script) /\
  tud_midi_packet_read scripted_sdk busy_script
    = (Some (UsbPacket 0x09 0x90 60 100), busy_script_usb_read) /\
  ble_midi_server_is_connected scripted_sdk busy_script_usb_read
    = (true, busy_script_usb_read) /\
  ble_midi_server_stream_read scripted_sdk 3 busy_script_usb_read
    = ((1, BleBuffer 0xC0 0xAA 0xAA), busy_script_after_pass) /\
  1 <= 1 <= 3 /\
  zero_padded (ble_payload 1 (BleBuffer 0xC0 0xAA 0xAA)) = (0xC0, 0, 0) /\
  exists w' evs,
    main_loop_body scripted_sdk busy_script power_on
      = Some (busy_script_after_pass, w') /\
    trace w' = trace power_on ++ evs /\
    count is_usb_read evs = 1%nat /\
    count is_ble_read evs = 1%nat /\
    count (is_dispatch "USB") evs = 1%nat /\
    count (is_dispatch "BT") evs = 1%nat.
Proof.
  split; [reflexivity|]. split; [reflexivity|]. split; [reflexivity|].
  split; [reflexivity|]. split; [reflexivity|]. split; [lia|].
  split; [reflexivity|].
  destruct (loop_iteration_fair scripted_sdk busy_script power_on)
    as (e' & w' & evs & E & _ & Htr & _ & _ & _ & _ & Hpending);
    [reflexivity|].
  destruct (Hpending busy_script busy_script_usb_read busy_script_usb_read
              busy_script_after_pass (UsbPacket 0x09 0x90 60 100)
              1 (BleBuffer 0xC0 0xAA 0xAA) 0xC0 0 0)
    as (He' & Du & Db & rs1 & usb_evs & ble_evs & Eu & Eb & Hevs);
    [reflexivity | reflexivity | reflexivity | reflexivity | lia
    | reflexivity |].
  exists w', evs. rewrite He' in E.
  split; [exact E|]. split; [exact Htr|].
  vm_compute in Eu, Eb. inversion Eu; subst rs1 usb_evs.
  inversion Eb; subst ble_evs.
  split; [rewrite Hevs; reflexivity|]. split; [rewrite Hevs; reflexivity|].
  split; [exact Du | exact Db].
Defined.

(** ** The loop keeps running *)

Lemma main_loop_body_total {env : Type} (K : sdk env) (e : env) (w : world) :
  wf w -> exists e' w', main_loop_body K e w = Some (e', w') /\ wf w'.
Proof.
  intros Hwf.
  destruct (main_usb_check_run K (tud_task K e) (after_calls [TudTask] w) Hwf)
    as (eu & wu & evs_u & Eu & Hwfu & _).
  destruct (main_ble_check_run K eu wu Hwfu)
    as (eb & wb & evs_b & Eb & Hwfb & _).
  exists (sleep_ms K 1 (cyw43_arch_poll K eb)),
         (after_calls [Cyw43ArchPoll; SleepMs 1] wb).
  split; [|exact Hwfb].
  unfold main_loop_body.
  change (emit (Call TudTask) w) with (Some (after_calls [TudTask] w)).
  cbn [mbind option_bind]. rewrite Eu. cbn [mbind option_bind].
  rewrite Eb. cbn [mbind option_bind]. unfold emit, after_calls.
  cbn [mbind option_bind relay_states trace map].
  rewrite <- app_assoc. reflexivity.
Qed.

(** Any number of passes returns: no pass of the loop can get stuck. *)
Lemma main_loop_total {env : Type} (K : sdk env) (n : nat) :
  forall (e : env) (w : world),
    wf w -> exists e' w', main_loop K n e w = Some (e', w') /\ wf w'.
Proof.
  induction n as [|n IH]; intros e w Hwf.
  - exists e, w. split; [reflexivity | exact Hwf].
  - destruct (main_loop_body_total K e w Hwf) as (e1 & w1 & E1 & Hwf1).
    destruct (IH e1 w1 Hwf1) as (e2 & w2 & E2 & Hwf2).
    exists e2, w2. split; [|exact Hwf2].
    cbn [main_loop]. rewrite E1. cbn [mbind option_bind]. exact E2.
Qed.

(** * More on the relay engine *)

Lemma writes_to_app (pin : Z) (t1 t2 : list event) :
  writes_to pin (t1 ++ t2) = writes_to pin t1 ++ writes_to pin t2.
Proof.
  unfold writes_to. rewrite gpio_writes_app, List.filter_app, List.map_app.
  reflexivity.
Qed.

Lemma pin_level_app (pin : Z) (t1 t2 : list event) :
  pin_level pin (t1 ++ t2) =
  match pin_level pin t2 with
  | Some v => Some v
  | None => pin_level pin t1
  end.
Proof.
  unfold pin_level. rewrite writes_to_app, last_app. reflexivity.
Qed.

Lemma writes_to_set_relay_events
    (pin id : Z) (on : bool) (rs : list bool) :
  writes_to pin (set_relay_events id on rs) =
  if 15 + id =? pin then [on] else [].
Proof.
  unfold writes_to, set_relay_events. simpl.
  destruct (15 + id =? pin); reflexivity.
Qed.

(** X1. Last write wins, and no write is suppressed: two calls of
    [set_relay] on the same valid relay leave the array as the second call
    alone would, and each of them drives the pin, also when the value is
    the one the slot already holds. *)
Theorem set_relay_twice (id : Z) (a b : bool) (w : world) :
  wf w -> 1 <= id <= 4 ->
  exists w2 w1,
    (set_relay id a >> set_relay id b) w = Some w2 /\
    set_relay id b w = Some w1 /\
    relay_states w2 = relay_states w1 /\
    gpio_writes (trace w2) =
      gpio_writes (trace w) ++ [(15 + id, a); (15 + id, b)].
Proof.
  intros Hwf Hid.
  pose proof (set_relay_in_range id a w Hwf Hid) as Ea.
  match type of Ea with
  | _ = Some ?w1 =>
      assert (Hwf1 : wf w1)
        by (unfold wf; simpl; rewrite length_insert; exact Hwf);
      pose proof (set_relay_in_range id b w1 Hwf1 Hid) as Eab
  end.
  eexists _, _.
  split; [rewrite (seq_Some _ _ _ _ Ea); exact Eab|].
  split; [apply set_relay_in_range; assumption|].
  simpl. split; [apply list_insert_insert_eq|].
  rewrite !gpio_writes_app. simpl. rewrite <- app_assoc. reflexivity.
Qed.

Lemma set_relay_twice_witness :
  wf power_on /\ 1 <= 2 <= 4 /\
  exists w2 w1,
    (set_relay 2 true >> set_relay 2 true) power_on = Some w2 /\
    set_relay 2 true power_on = Some w1 /\
    relay_states w2 = relay_states w1 /\
    gpio_writes (trace w2) =
      gpio_writes (trace power_on) ++ [(15 + 2, true); (15 + 2, true)].
Proof.
  split; [reflexivity|]. split; [lia|].
  apply (set_relay_twice 2 true true power_on); [reflexivity | lia].
Defined.

(** X2. Calls of [set_relay] on two different valid relays commute as far
    as the array goes: either order leaves the same array. *)
Theorem set_relay_commute (id1 id2 : Z) (a b : bool) (w : world) :
  wf w -> 1 <= id1 <= 4 -> 1 <= id2 <= 4 -> id1 <> id2 ->
  exists w12 w21,
    (set_relay id1 a >> set_relay id2 b) w = Some w12 /\
    (set_relay id2 b >> set_relay id1 a) w = Some w21 /\
    relay_states w12 = relay_states w21.
Proof.
  intros Hwf H1 H2 Hne.
  pose proof (set_relay_in_range id1 a w Hwf H1) as E1.
  pose proof (set_relay_in_range id2 b w Hwf H2) as E2.
  assert (Hwf1 : forall id v tr,
            wf {| relay_states := <[Z.to_nat (id - 1) := v]> (relay_states w);
                  trace := tr |}).
  { intros. unfold wf. simpl. rewrite length_insert. exact Hwf. }
  eexists _, _.
  split; [rewrite (seq_Some _ _ _ _ E1);
          apply set_relay_in_range; [apply Hwf1 | exact H2]|].
  split; [rewrite (seq_Some _ _ _ _ E2);
          apply set_relay_in_range; [apply Hwf1 | exact H1]|].
  simpl. apply list_insert_insert_ne. lia.
Qed.

Lemma set_relay_commute_witness :
  wf power_on /\ 1 <= 1 <= 4 /\ 1 <= 4 <= 4 /\ 1 <> 4 /\
  exists w12 w21,
    (set_relay 1 true >> set_relay 4 true) power_on = Some w12 /\
    (set_relay 4 true >> set_relay 1 true) power_on = Some w21 /\
    relay_states w12 = relay_states w21.
Proof.
  split; [reflexivity|]. split; [lia|]. split; [lia|]. split; [lia|].
  apply (set_relay_commute 1 4 true true power_on); [reflexivity | lia..].
Defined.

(** ** The array mirrors the pins *)

Lemma preserves_skip (P : world -> Prop) : preserves P skip.
Proof. intros w w' HP E. inversion E; subst. exact HP. Qed.

Lemma preserves_seq (P : world -> Prop) (c1 c2 : cmd) :
  preserves P c1 -> preserves P c2 -> preserves P (c1 >> c2).
Proof.
  intros H1 H2 w w' HP. unfold seq.
  destruct (c1 w) as [w1|] eqn:E1; [|discriminate].
  intros E2. exact (H2 _ _ (H1 _ _ HP E1) E2).
Qed.

Lemma preserves_if (P : world -> Prop) (b : bool) (c1 c2 : cmd) :
  preserves P c1 -> preserves P c2 -> preserves P (if b then c1 else c2).
Proof. destruct b; auto. Qed.

Lemma writes_to_no_gpio (pin : Z) (tr : list event) :
  gpio_writes tr = [] -> writes_to pin tr = [].
Proof. unfold writes_to. intros ->. reflexivity. Qed.

(** Appending events that write no pin keeps the state consistent. *)
Lemma consistent_append (w : world) (evs : list event) :
  gpio_writes evs = [] ->
  consistent w ->
  consistent {| relay_states := relay_states w; trace := trace w ++ evs |}.
Proof.
  intros Hev [Hwf Hm]. split; [exact Hwf|].
  intros id Hid. simpl. rewrite pin_level_app.
  unfold pin_level at 1. rewrite (writes_to_no_gpio _ _ Hev). simpl.
  apply Hm. exact Hid.
Qed.

Lemma preserves_printf (fmt : string) (args : list printf_arg) :
  preserves consistent (printf fmt args).
Proof.
  intros w w' HP E. inversion E; subst.
  apply (consistent_append w [Printf fmt args]); [reflexivity | exact HP].
Qed.

Lemma preserves_set_relay (id : Z) (on : bool) :
  preserves consistent (set_relay id on).
Proof.
  intros w w' [Hwf Hm] E.
  destruct (Z_lt_dec id 1) as [Hlo|Hlo];
    [rewrite set_relay_out_of_range in E by lia; inversion E; subst;
     split; assumption|].
  destruct (Z_lt_dec 4 id) as [Hhi|Hhi];
    [rewrite set_relay_out_of_range in E by lia; inversion E; subst;
     split; assumption|].
  rewrite set_relay_in_range in E by (assumption || lia).
  inversion E; subst w'. clear E. split.
  - unfold wf. simpl. rewrite length_insert. exact Hwf.
  - intros j Hj. simpl. rewrite pin_level_app. unfold pin_level at 1.
    rewrite writes_to_set_relay_events.
    destruct (Z.eqb_spec (15 + id) (15 + j)) as [Heq|Hne].
    + assert (j = id) by lia. subst j. simpl.
      symmetry. apply list_lookup_insert_eq. unfold wf in Hwf. lia.
    + simpl. rewrite list_lookup_insert_ne by lia. apply Hm. exact Hj.
Qed.

Create HintDb preserves_db.
#[local] Hint Resolve preserves_skip preserves_seq preserves_if
  preserves_printf preserves_set_relay : preserves_db.

Lemma preserves_process_midi_message
    (status data1 data2 : Z) (from_bluetooth : bool) :
  preserves consistent
    (process_midi_message status data1 data2 from_bluetooth).
Proof. unfold process_midi_message. auto 30 with preserves_db. Qed.

(** X3. [set_relay] keeps the array and the pins in step: if, before the
    call, every relay pin was last driven to the level its slot holds,
    the same is true after the call, for every id (valid or not) and
    every value. *)
Theorem set_relay_mirrors (id : Z) (on : bool) (w : world) :
  wf w -> mirrors w ->
  exists w', set_relay id on w = Some w' /\ wf w' /\ mirrors w'.
Proof.
  intros Hwf Hm.
  destruct (total_set_relay id on w Hwf) as (w' & E & _).
  exists w'. split; [exact E|].
  exact (preserves_set_relay id on w w' (conj Hwf Hm) E).
Qed.

(** What [init_relays] does, from any state. *)
Lemma init_relays_run (w : world) :
  exists w',
    init_relays w = Some w' /\
    relay_states w' = relay_states w /\
    (forall id : Z, 1 <= id <= 4 ->
       pin_level (15 + id) (trace w') = Some false /\
       In (GpioInit (15 + id)) (trace w') /\
       In (GpioSetDirOut (15 + id)) (trace w')) /\
    (relay_states w = [false; false; false; false] -> mirrors w').
Proof.
  destruct w as [rs tr].
  assert (Hloc : local init_relays) by (unfold init_relays; prove_local).
  rewrite (Hloc rs tr).
  set (r := init_relays {| relay_states := rs; trace := [] |}).
  vm_compute in r. subst r.
  cbn [fmap option_fmap option_map prepend relay_states trace].
  eexists. split; [reflexivity|]. cbn [relay_states trace].
  split; [reflexivity|].
  assert (Hpins : forall id : Z, 1 <= id <= 4 ->
            pin_level (15 + id)
              (tr ++ [GpioInit 16; GpioInit 17; GpioInit 18; GpioInit 19;
                      GpioSetDirOut 16; GpioSetDirOut 17; GpioSetDirOut 18;
                      GpioSetDirOut 19; GpioPut 16 false; GpioPut 17 false;
                      GpioPut 18 false; GpioPut 19 false;
                      Printf "Relays initialized on pins 16-19\r\n" []])
            = Some false).
  { intros id Hid. rewrite pin_level_app. relay_cases id; reflexivity. }
  split.
  - intros id Hid. split; [apply Hpins; exact Hid|].
    split; apply in_or_app; right; relay_cases id; simpl; tauto.
  - intros Hrs id Hid. unfold prepend. cbn [relay_states trace].
    rewrite (Hpins id Hid), Hrs. relay_cases id; reflexivity.
Qed.

(** X4. [init_relays] configures the four relay pins as outputs and drives
    each of them low, without touching the state array; so when the array
    holds its start-up value (all off) the array mirrors the pins
    afterwards. *)
Theorem init_relays_all_low (w : world) :
  exists w',
    init_relays w = Some w' /\
    relay_states w' = relay_states w /\
    (forall id : Z, 1 <= id <= 4 ->
       pin_level (15 + id) (trace w') = Some false /\
       In (GpioInit (15 + id)) (trace w') /\
       In (GpioSetDirOut (15 + id)) (trace w')) /\
    (relay_states w = [false; false; false; false] -> mirrors w').
Proof. exact (init_relays_run w). Qed.

Lemma booted_consistent : consistent booted.
Proof.
  split; [reflexivity|]. intros id Hid. relay_cases id; reflexivity.
Qed.

Lemma set_relay_mirrors_witness :
  wf booted /\ mirrors booted /\
  exists w', set_relay 3 true booted = Some w' /\ wf w' /\ mirrors w'.
Proof.
  split; [reflexivity|].
  split; [intros id Hid; relay_cases id; reflexivity|].
  apply (set_relay_mirrors 3 true booted);
    [reflexivity | intros id Hid; relay_cases id; reflexivity].
Defined.

Lemma init_relays_all_low_witness :
  relay_states power_on = [false; false; false; false] /\
  exists w',
    init_relays power_on = Some w' /\
    relay_states w' = relay_states power_on /\
    pin_level (15 + 1) (trace w') = Some false /\
    pin_level (15 + 4) (trace w') = Some false /\
    mirrors w'.
Proof.
  split; [reflexivity|].
  destruct (init_relays_all_low power_on) as (w' & E & Hrs & Hpins & Hm).
  exists w'. split; [exact E|]. split; [exact Hrs|].
  split; [apply (Hpins 1); lia|]. split; [apply (Hpins 4); lia|].
  apply Hm. reflexivity.
Defined.

(** * The relay actions of a message *)

Lemma agree_printf_left (fmt : string) (args : list printf_arg) (c d : cmd) :
  agree c d -> agree (printf fmt args >> c) d.
Proof.
  intros H w1 w2 [Hrs Hgp]. unfold seq, printf, emit. apply H.
  split; simpl; [exact Hrs|].
  rewrite gpio_writes_app. simpl. rewrite app_nil_r. exact Hgp.
Qed.

Lemma agree_printf_skip (fmt : string) (args : list printf_arg) :
  agree (printf fmt args) skip.
Proof.
  intros w1 w2 [Hrs Hgp]. constructor. split; simpl; [exact Hrs|].
  rewrite gpio_writes_app. simpl. rewrite app_nil_r. exact Hgp.
Qed.

Lemma agree_seq_skip_right (c d : cmd) : agree c d -> agree c (d >> skip).
Proof.
  intros H w1 w2 Hw. unfold seq.
  destruct (H w1 w2 Hw) as [w1' w2' Hw'|]; constructor. exact Hw'.
Qed.

(** Matches a handler branch against its list of actions. *)
Ltac match_actions :=
  cbn [do_actions foldr fst snd app];
  repeat match goal with
         | |- agree (printf _ _ >> _) _ => apply agree_printf_left
         | |- agree (printf _ _) skip => apply agree_printf_skip
         | |- agree skip skip => apply agree_skip
         | |- agree (set_relay ?i ?b) (set_relay ?i ?b >> skip) =>
             apply agree_seq_skip_right; apply agree_set_relay
         | |- agree (set_relay _ _ >> _) (set_relay _ _ >> _) =>
             apply agree_seq; [apply agree_set_relay|]
         end.

Lemma agree_process_actions
    (status data1 data2 : Z) (from_bluetooth : bool) :
  agree (process_midi_message status data1 data2 from_bluetooth)
        (do_actions (relay_actions status data1 data2)).
Proof.
  unfold process_midi_message, relay_actions.
  rewrite lookup_note_spec, Z.gtb_ltb.
  destruct (Z.land status 240 =? MIDI_NOTE_ON).
  { destruct (0 <? data2);
      (destruct (data1 =? RELAY_1_NOTE); [match_actions; fail|]);
      (destruct (data1 =? RELAY_2_NOTE); [match_actions; fail|]);
      (destruct (data1 =? RELAY_3_NOTE); [match_actions; fail|]);
      (destruct (data1 =? RELAY_4_NOTE); [match_actions; fail|]);
      match_actions. }
  destruct (Z.land status 240 =? MIDI_NOTE_OFF).
  { (destruct (data1 =? RELAY_1_NOTE); [match_actions; fail|]);
      (destruct (data1 =? RELAY_2_NOTE); [match_actions; fail|]);
      (destruct (data1 =? RELAY_3_NOTE); [match_actions; fail|]);
      (destruct (data1 =? RELAY_4_NOTE); [match_actions; fail|]);
      match_actions. }
  destruct (Z.land status 240 =? MIDI_CC).
  { destruct ((data1 >=? 1) && (data1 <=? 4)); match_actions. }
  destruct (Z.land status 240 =? MIDI_PROGRAM_CHANGE).
  { destruct ((data1 >=? 0) && (data1 <=? 3)); match_actions. }
  match_actions.
Qed.

Lemma do_actions_spec (acts : list (Z * bool)) :
  forall w,
    wf w -> Forall valid_action acts ->
    exists w',
      do_actions acts w = Some w' /\
      relay_states w' = foldl apply_action (relay_states w) acts /\
      gpio_writes (trace w') =
        gpio_writes (trace w) ++ map action_write acts.
Proof.
  induction acts as [|[id on] acts IH]; intros w Hwf Hv.
  - exists w. split; [reflexivity|]. split; [reflexivity|].
    simpl. rewrite app_nil_r. reflexivity.
  - inversion Hv as [|? ? Hid Hv']; subst. unfold valid_action in Hid.
    simpl in Hid.
    pose proof (set_relay_in_range id on w Hwf Hid) as E.
    match type of E with
    | _ = Some ?w1 =>
        assert (Hwf1 : wf w1)
          by (unfold wf; simpl; rewrite length_insert; exact Hwf);
        destruct (IH w1 Hwf1 Hv') as (w' & E' & Hrs & Hgp)
    end.
    exists w'. split; [cbn [do_actions foldr fst snd];
                       rewrite (seq_Some _ _ _ _ E); exact E'|].
    split; [exact Hrs|].
    rewrite Hgp. simpl. rewrite gpio_writes_app. simpl.
    rewrite <- app_assoc. reflexivity.
Qed.

Lemma lookup_note_valid (note id : Z) :
  lookup_note note = Some id -> 1 <= id <= 4.
Proof.
  rewrite lookup_note_spec.
  destruct (note =? RELAY_1_NOTE); [intros [= <-]; lia|].
  destruct (note =? RELAY_2_NOTE); [intros [= <-]; lia|].
  destruct (note =? RELAY_3_NOTE); [intros [= <-]; lia|].
  destruct (note =? RELAY_4_NOTE); [intros [= <-]; lia|].
  discriminate.
Qed.

Lemma relay_actions_valid (status data1 data2 : Z) :
  Forall valid_action (relay_actions status data1 data2).
Proof.
  unfold relay_actions.
  destruct (Z.land status 240 =? MIDI_NOTE_ON).
  { destruct (lookup_note data1) as [id|] eqn:E; [|constructor].
    repeat constructor; apply (lookup_note_valid _ _ E). }
  destruct (Z.land status 240 =? MIDI_NOTE_OFF).
  { destruct (lookup_note data1) as [id|] eqn:E; [|constructor].
    repeat constructor; apply (lookup_note_valid _ _ E). }
  destruct (Z.land status 240 =? MIDI_CC).
  { destruct ((data1 >=? 1) && (data1 <=? 4)) eqn:E; [|constructor].
    rewrite Z.geb_leb in E. apply andb_true_iff in E. destruct E as [E1 E2].
    apply Z.leb_le in E1. apply Z.leb_le in E2.
    repeat constructor; unfold valid_action; simpl; lia. }
  destruct (Z.land status 240 =? MIDI_PROGRAM_CHANGE); [|constructor].
  apply Forall_app. split.
  - repeat constructor; unfold valid_action; simpl; lia.
  - destruct ((data1 >=? 0) && (data1 <=? 3)) eqn:E; [|constructor].
    rewrite Z.geb_leb in E. apply andb_true_iff in E. destruct E as [E1 E2].
    apply Z.leb_le in E1. apply Z.leb_le in E2.
    repeat constructor; unfold valid_action; simpl; lia.
Qed.

Lemma relay_actions_length (status data1 data2 : Z) :
  (length (relay_actions status data1 data2) <= 5)%nat /\
  (Z.land status 0xF0 <> MIDI_PROGRAM_CHANGE ->
   (length (relay_actions status data1 data2) <= 1)%nat).
Proof.
  unfold relay_actions.
  destruct (Z.land status 240 =? MIDI_NOTE_ON);
    [destruct (lookup_note data1); simpl; lia|].
  destruct (Z.land status 240 =? MIDI_NOTE_OFF);
    [destruct (lookup_note data1); simpl; lia|].
  destruct (Z.land status 240 =? MIDI_CC);
    [destruct ((data1 >=? 1) && (data1 <=? 4)); simpl; lia|].
  destruct (Z.eqb_spec (Z.land status 240) MIDI_PROGRAM_CHANGE);
    [|simpl; lia].
  destruct ((data1 >=? 0) && (data1 <=? 3)); simpl; split; (lia || tauto).
Qed.

(** The whole effect of a message on the relays is that of its actions. *)
Lemma process_midi_message_actions
    (status data1 data2 : Z) (from_bluetooth : bool) (w : world) :
  wf w ->
  exists w',
    process_midi_message status data1 data2 from_bluetooth w = Some w' /\
    wf w' /\
    relay_states w' =
      foldl apply_action (relay_states w) (relay_actions status data1 data2) /\
    gpio_writes (trace w') =
      gpio_writes (trace w)
      ++ map action_write (relay_actions status data1 data2).
Proof.
  intros Hwf.
  destruct (total_process_midi_message status data1 data2 from_bluetooth w Hwf)
    as (w' & E & Hwf').
  destruct (do_actions_spec _ w Hwf (relay_actions_valid status data1 data2))
    as (wa & Ea & Hrs & Hgp).
  pose proof (agree_process_actions status data1 data2 from_bluetooth
                w w (same_relays_refl w)) as H.
  rewrite E, Ea in H. inversion H as [? ? [Hrs' Hgp']|]; subst.
  exists w'. split; [exact E|]. split; [exact Hwf'|].
  split; congruence.
Qed.

(** X5. Whatever the message, [process_midi_message] drives at most five
    pins, and only relay pins: every pin write it makes is to one of the
    pins 16..19. *)
Theorem process_writes_relay_pins_only
    (status data1 data2 : Z) (from_bluetooth : bool) (w : world) :
  wf w ->
  exists w' writes,
    process_midi_message status data1 data2 from_bluetooth w = Some w' /\
    gpio_writes (trace w') = gpio_writes (trace w) ++ writes /\
    (length writes <= 5)%nat /\
    Forall (fun pv => RELAY_1_PIN <= fst pv <= RELAY_4_PIN) writes.
Proof.
  intros Hwf.
  destruct (process_midi_message_actions status data1 data2 from_bluetooth
              w Hwf) as (w' & E & _ & _ & Hgp).
  exists w', (map action_write (relay_actions status data1 data2)).
  split; [exact E|]. split; [exact Hgp|].
  split; [rewrite length_map; apply relay_actions_length|].
  apply Forall_map.
  eapply Forall_impl; [apply relay_actions_valid|].
  intros [id on] Hv. unfold valid_action in Hv. unfold RELAY_1_PIN, RELAY_4_PIN.
  simpl in *. lia.
Qed.

Lemma process_writes_relay_pins_only_witness :
  wf power_on /\
  exists w' writes,
    process_midi_message 0xC0 3 0 false power_on = Some w' /\
    gpio_writes (trace w') = gpio_writes (trace power_on) ++ writes /\
    (length writes <= 5)%nat /\
    Forall (fun pv => RELAY_1_PIN <= fst pv <= RELAY_4_PIN) writes.
Proof.
  split; [reflexivity|].
  apply (process_writes_relay_pins_only 0xC0 3 0 false power_on).
  reflexivity.
Defined.

(** X6. A message that is not a ProgramChange changes at most one slot of
    the array and drives at most one pin. *)
Theorem message_changes_one_relay
    (status data1 data2 : Z) (from_bluetooth : bool) (w : world) :
  wf w -> Z.land status 0xF0 <> MIDI_PROGRAM_CHANGE ->
  exists w' (i : nat) writes,
    process_midi_message status data1 data2 from_bluetooth w = Some w' /\
    (forall j : nat, j <> i -> relay_states w' !! j = relay_states w !! j) /\
    gpio_writes (trace w') = gpio_writes (trace w) ++ writes /\
    (length writes <= 1)%nat.
Proof.
  intros Hwf Hpc.
  destruct (process_midi_message_actions status data1 data2 from_bluetooth
              w Hwf) as (w' & E & _ & Hrs & Hgp).
  pose proof (proj2 (relay_actions_length status data1 data2) Hpc) as Hlen.
  destruct (relay_actions status data1 data2) as [|[id on] [|b acts]];
    simpl in Hlen; [| |lia].
  - exists w', 0%nat, []. split; [exact E|].
    split; [intros j _; rewrite Hrs; reflexivity|].
    split; [exact Hgp | simpl; lia].
  - exists w', (Z.to_nat (id - 1)), [action_write (id, on)].
    split; [exact E|].
    split; [intros j Hj; rewrite Hrs; simpl; unfold apply_action; simpl;
            apply list_lookup_insert_ne; congruence|].
    split; [exact Hgp | simpl; lia].
Qed.

Lemma message_changes_one_relay_witness :
  wf power_on /\ Z.land 0xB0 0xF0 <> MIDI_PROGRAM_CHANGE /\
  exists w' (i : nat) writes,
    process_midi_message 0xB0 3 127 false power_on = Some w' /\
    (forall j : nat, j <> i ->
       relay_states w' !! j = relay_states power_on !! j) /\
    gpio_writes (trace w') = gpio_writes (trace power_on) ++ writes /\
    (length writes <= 1)%nat.
Proof.
  split; [reflexivity|]. split; [vm_compute; discriminate|].
  apply (message_changes_one_relay 0xB0 3 127 false power_on);
    [reflexivity | vm_compute; discriminate].
Defined.

Lemma relay_actions_program_change (status data1 data2 : Z) :
  Z.land status 0xF0 = MIDI_PROGRAM_CHANGE ->
  relay_actions status data1 data2 =
  [(1, false); (2, false); (3, false); (4, false)]
  ++ (if (data1 >=? 0) && (data1 <=? 3) then [(data1 + 1, true)] else []).
Proof. intros H. unfold relay_actions. rewrite H. reflexivity. Qed.

(** X7. A ProgramChange forgets the past and ignores [data2]: two
    ProgramChange messages with the same [data1], run from any two prior
    states and with any [data2], channel and source, leave the same
    array. *)
Theorem program_change_forgets
    (status1 status2 data1 data2 data2' : Z) (from_bt1 from_bt2 : bool)
    (w1 w2 : world) :
  wf w1 -> wf w2 ->
  Z.land status1 0xF0 = MIDI_PROGRAM_CHANGE ->
  Z.land status2 0xF0 = MIDI_PROGRAM_CHANGE ->
  exists w1' w2',
    process_midi_message status1 data1 data2 from_bt1 w1 = Some w1' /\
    process_midi_message status2 data1 data2' from_bt2 w2 = Some w2' /\
    relay_states w1' = relay_states w2'.
Proof.
  intros Hwf1 Hwf2 H1 H2.
  destruct (process_midi_message_actions status1 data1 data2 from_bt1
              w1 Hwf1) as (w1' & E1 & _ & Hrs1 & _).
  destruct (process_midi_message_actions status2 data1 data2' from_bt2
              w2 Hwf2) as (w2' & E2 & _ & Hrs2 & _).
  exists w1', w2'. split; [exact E1|]. split; [exact E2|].
  rewrite Hrs1, Hrs2.
  rewrite (relay_actions_program_change _ _ _ H1),
          (relay_actions_program_change _ _ _ H2), !foldl_app.
  explicit_world w1 Hwf1. explicit_world w2 Hwf2. reflexivity.
Qed.

Lemma program_change_forgets_witness :
  wf power_on /\ wf booted /\
  Z.land 0xC0 0xF0 = MIDI_PROGRAM_CHANGE /\
  Z.land 0xC7 0xF0 = MIDI_PROGRAM_CHANGE /\
  exists w1' w2',
    process_midi_message 0xC0 1 0 false power_on = Some w1' /\
    process_midi_message 0xC7 1 99 true booted = Some w2' /\
    relay_states w1' = relay_states w2'.
Proof.
  split; [reflexivity|]. split; [reflexivity|].
  split; [reflexivity|]. split; [reflexivity|].
  apply (program_change_forgets 0xC0 0xC7 1 0 99 false true power_on booted);
    reflexivity.
Defined.

Lemma relay_actions_note_on (status data1 data2 : Z) :
  Z.land status 0xF0 = MIDI_NOTE_ON ->
  relay_actions status data1 data2 =
  match lookup_note data1 with
  | Some id => [(id, 0 <? data2)]
  | None => []
  end.
Proof. intros H. unfold relay_actions. rewrite H. reflexivity. Qed.

Lemma relay_actions_note_off (status data1 data2 : Z) :
  Z.land status 0xF0 = MIDI_NOTE_OFF ->
  relay_actions status data1 data2 =
  match lookup_note data1 with
  | Some id => [(id, false)]
  | None => []
  end.
Proof. intros H. unfold relay_actions. rewrite H. reflexivity. Qed.

(** X8. A NoteOff cancels the NoteOn before it: a NoteOn followed by a
    NoteOff for the same note (any velocities, channels and sources)
    leaves the array as the NoteOff alone would. *)
Theorem note_off_cancels_note_on
    (status_on status_off note vel_on vel_off : Z)
    (from_bt1 from_bt2 : bool) (w : world) :
  wf w ->
  Z.land status_on 0xF0 = MIDI_NOTE_ON ->
  Z.land status_off 0xF0 = MIDI_NOTE_OFF ->
  exists w2 w1,
    (process_midi_message status_on note vel_on from_bt1 >>
     process_midi_message status_off note vel_off from_bt2) w = Some w2 /\
    process_midi_message status_off note vel_off from_bt2 w = Some w1 /\
    relay_states w2 = relay_states w1.
Proof.
  intros Hwf Hon Hoff.
  destruct (process_midi_message_actions status_on note vel_on from_bt1
              w Hwf) as (wa & Ea & Hwfa & Hrsa & _).
  destruct (process_midi_message_actions status_off note vel_off from_bt2
              wa Hwfa) as (w2 & E2 & _ & Hrs2 & _).
  destruct (process_midi_message_actions status_off note vel_off from_bt2
              w Hwf) as (w1 & E1 & _ & Hrs1 & _).
  exists w2, w1.
  split; [rewrite (seq_Some _ _ _ _ Ea); exact E2|].
  split; [exact E1|].
  rewrite Hrs2, Hrs1, Hrsa.
  rewrite (relay_actions_note_on _ _ _ Hon).
  rewrite (relay_actions_note_off _ _ _ Hoff).
  destruct (lookup_note note); [|reflexivity].
  simpl. unfold apply_action. simpl. apply list_insert_insert_eq.
Qed.

Lemma note_off_cancels_note_on_witness :
  wf power_on /\
  Z.land 0x90 0xF0 = MIDI_NOTE_ON /\
  Z.land 0x83 0xF0 = MIDI_NOTE_OFF /\
  exists w2 w1,
    (process_midi_message 0x90 62 100 false >>
     process_midi_message 0x83 62 64 true) power_on = Some w2 /\
    process_midi_message 0x83 62 64 true power_on = Some w1 /\
    relay_states w2 = relay_states w1.
Proof.
  split; [reflexivity|]. split; [reflexivity|]. split; [reflexivity|].
  apply (note_off_cancels_note_on 0x90 0x83 62 100 64 false true power_on);
    reflexivity.
Defined.

(** X9. [process_midi_message] keeps the array and the pins in step: if
    every relay pin was last driven to the level its slot holds before a
    message is processed, the same is true afterwards, whatever the
    message. *)
Theorem process_midi_message_mirrors
    (status data1 data2 : Z) (from_bluetooth : bool) (w : world) :
  wf w -> mirrors w ->
  exists w',
    process_midi_message status data1 data2 from_bluetooth w = Some w' /\
    wf w' /\ mirrors w'.
Proof.
  intros Hwf Hm.
  destruct (total_process_midi_message status data1 data2 from_bluetooth w Hwf)
    as (w' & E & _).
  exists w'. split; [exact E|].
  exact (preserves_process_midi_message status data1 data2 from_bluetooth
           w w' (conj Hwf Hm) E).
Qed.

Lemma process_midi_message_mirrors_witness :
  wf booted /\ mirrors booted /\
  exists w',
    process_midi_message 0xC0 2 0 false booted = Some w' /\
    wf w' /\ mirrors w'.
Proof.
  split; [reflexivity|].
  split; [intros id Hid; relay_cases id; reflexivity|].
  apply (process_midi_message_mirrors 0xC0 2 0 false booted);
    [reflexivity | intros id Hid; relay_cases id; reflexivity].
Defined.

(** X10. [print_relay_states] only reports: it leaves the array alone and
    drives no pin, and the line it prints determines the array -- two
    states that print the same line hold the same array. *)
Theorem print_relay_states_faithful (w1 w2 : world) :
  wf w1 -> wf w2 ->
  exists w1' w2',
    print_relay_states w1 = Some w1' /\
    print_relay_states w2 = Some w2' /\
    relay_states w1' = relay_states w1 /\
    gpio_writes (trace w1') = gpio_writes (trace w1) /\
    (last (trace w1') = last (trace w2') ->
     relay_states w1 = relay_states w2).
Proof.
  intros Hwf1 Hwf2. explicit_world w1 Hwf1. explicit_world w2 Hwf2.
  eexists _, _. split; [reflexivity|]. split; [reflexivity|].
  simpl. split; [reflexivity|].
  split; [rewrite gpio_writes_app; simpl; apply app_nil_r|].
  rewrite !last_snoc. intros [= H0 H1 H2 H3].
  destruct r0, r4, r1, r5, r2, r6, r3, r7; (reflexivity || discriminate).
Qed.

Lemma print_relay_states_faithful_witness :
  wf power_on /\ wf booted /\
  exists w1' w2',
    print_relay_states power_on = Some w1' /\
    print_relay_states booted = Some w2' /\
    relay_states w1' = relay_states power_on /\
    gpio_writes (trace w1') = gpio_writes (trace power_on) /\
    relay_states power_on = relay_states booted.
Proof.
  split; [reflexivity|]. split; [reflexivity|].
  destruct (print_relay_states_faithful power_on booted)
    as (w1' & w2' & E1 & E2 & Hrs & Hgp & Hsame);
    [reflexivity | reflexivity |].
  exists w1', w2'. split; [exact E1|]. split; [exact E2|].
  split; [exact Hrs|]. split; [exact Hgp|].
  apply Hsame. vm_compute in E1, E2. inversion E1; inversion E2. reflexivity.
Defined.

(** * More on the polling loop *)

Lemma after_calls_consistent (cs : list sdk_call) (w : world) :
  consistent w -> consistent (after_calls cs w).
Proof.
  intros H. apply (consistent_append w (map Call cs)); [|exact H].
  induction cs as [|c cs IH]; [reflexivity | exact IH].
Qed.

Lemma emit_call (c : sdk_call) (w : world) :
  emit (Call c) w = Some (after_calls [c] w).
Proof. reflexivity. Qed.

Lemma after_calls_app (cs1 cs2 : list sdk_call) (w : world) :
  after_calls cs2 (after_calls cs1 w) = after_calls (cs1 ++ cs2) w.
Proof.
  unfold after_calls. simpl. rewrite List.map_app, app_assoc. reflexivity.
Qed.

Lemma ignores_engine_sdk_call : ignores_engine is_sdk_call.
Proof. repeat split. Qed.

(** A handler run makes no call of the SDK functions of the loop. *)
Lemma process_midi_message_no_sdk_call
    (status data1 data2 : Z) (from_bluetooth : bool)
    (rs rs' : list bool) (evs : list event) :
  process_midi_message status data1 data2 from_bluetooth
    {| relay_states := rs; trace := [] |}
  = Some {| relay_states := rs'; trace := evs |} ->
  count is_sdk_call evs = 0%nat.
Proof.
  intros E.
  exact (emits_process_midi_message is_sdk_call false status data1 data2
           from_bluetooth ignores_engine_sdk_call (fun _ _ => eq_refl)
           _ _ E).
Qed.

Lemma count_zero_Forall (f : event -> bool) (l : list event) :
  count f l = 0%nat <-> Forall (fun e => f e = false) l.
Proof.
  unfold count. induction l as [|e l IH]; simpl.
  - split; [constructor | reflexivity].
  - destruct (f e) eqn:E; simpl.
    + split; [discriminate | intros H; inversion H; congruence].
    + rewrite IH.
      split; [constructor; assumption | intros H; inversion H; assumption].
Qed.

(** The shape of what one transport check adds to the trace: its SDK
    calls, then at most one handler run. *)
Lemma main_usb_check_shape {env : Type} (K : sdk env) (e : env) (w : world) :
  wf w ->
  exists e' w' cs hevs,
    main_usb_check K e w = Some (e', w') /\
    trace w' = trace w ++ map Call cs ++ hevs /\
    (cs = [TudMidiMounted] \/ cs = [TudMidiMounted; TudMidiPacketRead]) /\
    count is_sdk_call hevs = 0%nat /\
    (consistent w -> consistent w').
Proof.
  intros Hwf. unfold main_usb_check.
  destruct (tud_midi_mounted K e) as [[|] e2].
  - destruct (tud_midi_packet_read K e2) as [[p|] e3].
    + rewrite emit_call. cbn [mbind option_bind]. rewrite emit_call.
      cbn [mbind option_bind]. rewrite after_calls_app. cbn [app].
      set (w0 := after_calls [TudMidiMounted; TudMidiPacketRead] w).
      destruct (process_midi_message_run (packet_1 p) (packet_2 p)
                  (packet_3 p) false w0 Hwf)
        as (w' & evs & E & Hwf' & Htr & E0 & _).
      rewrite E. cbn [mbind option_bind].
      exists e3, w', [TudMidiMounted; TudMidiPacketRead], evs.
      split; [reflexivity|].
      split; [rewrite Htr; unfold w0, after_calls; cbn [trace];
              rewrite <- app_assoc; reflexivity|].
      split; [right; reflexivity|].
      split.
      * exact (process_midi_message_no_sdk_call _ _ _ _ _ _ _ E0).
      * intros Hc.
        exact (preserves_process_midi_message _ _ _ _ w0 w'
                 (after_calls_consistent _ _ Hc) E).
    + rewrite emit_call. cbn [mbind option_bind]. rewrite emit_call.
      cbn [mbind option_bind]. rewrite after_calls_app. cbn [app].
      eexists e3, _, [TudMidiMounted; TudMidiPacketRead], [].
      split; [reflexivity|].
      split; [unfold after_calls; cbn [trace]; rewrite app_nil_r; reflexivity|].
      split; [right; reflexivity|]. split; [reflexivity|].
      apply after_calls_consistent.
  - rewrite emit_call. cbn [mbind option_bind].
    eexists e2, _, [TudMidiMounted], [].
    split; [reflexivity|].
    split; [unfold after_calls; cbn [trace]; rewrite app_nil_r; reflexivity|].
    split; [left; reflexivity|]. split; [reflexivity|].
    apply after_calls_consistent.
Qed.

Lemma main_ble_check_shape {env : Type} (K : sdk env) (e : env) (w : world) :
  wf w ->
  exists e' w' cs hevs,
    main_ble_check K e w = Some (e', w') /\
    trace w' = trace w ++ map Call cs ++ hevs /\
    (cs = [BleMidiServerIsConnected] \/
     cs = [BleMidiServerIsConnected; BleMidiServerStreamRead]) /\
    count is_sdk_call hevs = 0%nat /\
    (consistent w -> consistent w').
Proof.
  intros Hwf. unfold main_ble_check.
  destruct (ble_midi_server_is_connected K e) as [[|] e2].
  - destruct (ble_midi_server_stream_read K 3 e2) as [[n buf] e3].
    rewrite emit_call. cbn [mbind option_bind]. rewrite emit_call.
    cbn [mbind option_bind]. rewrite after_calls_app. cbn [app].
    set (w0 := after_calls
                 [BleMidiServerIsConnected; BleMidiServerStreamRead] w).
    assert (Hidle :
      exists e' w' cs hevs,
        Some (e3, w0) = Some (e', w') /\
        trace w' = trace w ++ map Call cs ++ hevs /\
        (cs = [BleMidiServerIsConnected] \/
         cs = [BleMidiServerIsConnected; BleMidiServerStreamRead]) /\
        count is_sdk_call hevs = 0%nat /\
        (consistent w -> consistent w')).
    { exists e3, w0, [BleMidiServerIsConnected; BleMidiServerStreamRead], [].
      split; [reflexivity|].
      split; [unfold w0, after_calls; cbn [trace]; rewrite app_nil_r;
              reflexivity|].
      split; [right; reflexivity|]. split; [reflexivity|].
      apply after_calls_consistent. }
    destruct (n >? 0); [|exact Hidle].
    destruct (n >=? 1); [|exact Hidle].
    cbv zeta.
    match goal with
    | |- context [process_midi_message ?s ?d1 ?d2 true w0] =>
        destruct (process_midi_message_run s d1 d2 true w0 Hwf)
          as (w' & evs & E & Hwf' & Htr & E0 & _);
        rewrite E; cbn [mbind option_bind];
        exists e3, w', [BleMidiServerIsConnected; BleMidiServerStreamRead], evs;
        split; [reflexivity|];
        split; [rewrite Htr; unfold w0, after_calls; cbn [trace];
                rewrite <- app_assoc; reflexivity|];
        split; [right; reflexivity|];
        split;
        [ exact (process_midi_message_no_sdk_call _ _ _ _ _ _ _ E0)
        | intros Hc;
          exact (preserves_process_midi_message s d1 d2 true w0 w'
                   (after_calls_consistent _ _ Hc) E) ]
    end.
  - rewrite emit_call. cbn [mbind option_bind].
    eexists e2, _, [BleMidiServerIsConnected], [].
    split; [reflexivity|].
    split; [unfold after_calls; cbn [trace]; rewrite app_nil_r; reflexivity|].
    split; [left; reflexivity|]. split; [reflexivity|].
    apply after_calls_consistent.
Qed.

Lemma count_zero_mono (f g : event -> bool) (l : list event) :
  (forall e, f e = true -> g e = true) ->
  count g l = 0%nat -> count f l = 0%nat.
Proof.
  intros Hfg Hg. apply count_zero_Forall. apply count_zero_Forall in Hg.
  eapply Forall_impl; [exact Hg|]. intros e He. simpl in He.
  destruct (f e) eqn:E; [|reflexivity]. rewrite (Hfg e E) in He. discriminate.
Qed.

Lemma sdk_call_selectors (hevs : list event) :
  count is_sdk_call hevs = 0%nat ->
  count is_tud_task hevs = 0%nat /\
  count is_cyw43_poll hevs = 0%nat /\
  count is_sleep_1ms hevs = 0%nat.
Proof.
  intros H. repeat split; (eapply count_zero_mono; [|exact H]);
    intros [| | | |c]; simpl; try discriminate; reflexivity.
Qed.

(** Runs the SDK-call records at the head of the goal. *)
Ltac run_calls := repeat (rewrite emit_call; cbn [mbind option_bind]).

(** One pass: what it calls and how much it dispatches. *)
Lemma main_loop_body_pass {env : Type} (K : sdk env) (e : env) (w : world) :
  wf w ->
  exists e' w' evs,
    main_loop_body K e w = Some (e', w') /\
    wf w' /\
    (consistent w -> consistent w') /\
    trace w' = trace w ++ evs /\
    count is_tud_task evs = 1%nat /\
    count is_cyw43_poll evs = 1%nat /\
    count is_sleep_1ms evs = 1%nat /\
    (count is_usb_read evs <= 1)%nat /\
    (count is_ble_read evs <= 1)%nat /\
    (count (is_dispatch "USB") evs <= 1)%nat /\
    (count (is_dispatch "BT") evs <= 1)%nat.
Proof.
  intros Hwf.
  destruct (main_usb_check_run K (tud_task K e) (after_calls [TudTask] w) Hwf)
    as (eu & wu & evs_u & Eu & Hwfu & Htru & Uu & Ub & Du & Db & _).
  destruct (main_usb_check_shape K (tud_task K e) (after_calls [TudTask] w) Hwf)
    as (eu' & wu' & cs_u & hevs_u & Eu' & Htru' & Hcs_u & Hq_u & Hcons_u).
  rewrite Eu in Eu'. inversion Eu'; subst eu' wu'. clear Eu'.
  rewrite Htru in Htru'. apply app_inv_head in Htru'. subst evs_u.
  destruct (main_ble_check_run K eu wu Hwfu)
    as (eb & wb & evs_b & Eb & Hwfb & Htrb & Bu & Bb & Gu & Gb & _).
  destruct (main_ble_check_shape K eu wu Hwfu)
    as (eb' & wb' & cs_b & hevs_b & Eb' & Htrb' & Hcs_b & Hq_b & Hcons_b).
  rewrite Eb in Eb'. inversion Eb'; subst eb' wb'. clear Eb'.
  rewrite Htrb in Htrb'. apply app_inv_head in Htrb'. subst evs_b.
  exists (sleep_ms K 1 (cyw43_arch_poll K eb)),
         (after_calls [Cyw43ArchPoll; SleepMs 1] wb),
         (map Call [TudTask] ++ (map Call cs_u ++ hevs_u)
          ++ (map Call cs_b ++ hevs_b)
          ++ map Call [Cyw43ArchPoll; SleepMs 1]).
  split.
  { unfold main_loop_body. run_calls.
    rewrite Eu. cbn [mbind option_bind].
    rewrite Eb. cbn [mbind option_bind]. run_calls.
    rewrite after_calls_app. reflexivity. }
  split; [exact Hwfb|].
  split.
  { intros Hc. apply after_calls_consistent. apply Hcons_b. apply Hcons_u.
    apply after_calls_consistent. exact Hc. }
  split.
  { unfold after_calls at 1. cbn [trace]. rewrite Htrb, Htru.
    unfold after_calls. cbn [trace]. rewrite <- !app_assoc. reflexivity. }
  destruct (sdk_call_selectors _ Hq_u) as (Tu & Pu & Su).
  destruct (sdk_call_selectors _ Hq_b) as (Tb & Pb & Sb).
  rewrite !count_app in *. rewrite Tu, Pu, Su, Tb, Pb, Sb.
  destruct Hcs_u as [-> | ->]; destruct Hcs_b as [-> | ->];
    unfold count in *; simpl in *; lia.
Qed.

(** X11. An idle pass: when USB is not mounted and BLE is not connected,
    a pass through the loop body makes five SDK calls -- the USB stack
    task, the two status checks, the wireless poll and the 1 ms sleep --
    and nothing else: no read, no print, no pin write, array untouched. *)
Theorem idle_pass
    {env : Type} (K : sdk env) (e e2 e3 : env) (w : world) :
  tud_midi_mounted K (tud_task K e) = (false, e2) ->
  ble_midi_server_is_connected K e2 = (false, e3) ->
  main_loop_body K e w =
  Some (sleep_ms K 1 (cyw43_arch_poll K e3),
        after_calls [TudTask; TudMidiMounted; BleMidiServerIsConnected;
                     Cyw43ArchPoll; SleepMs 1] w).
Proof.
  intros Hm Hc. unfold main_loop_body, main_usb_check, main_ble_check.
  rewrite Hm. run_calls. rewrite Hc. run_calls.
  cbn [mbind option_bind]. run_calls.
  rewrite !after_calls_app. reflexivity.
Qed.

Lemma idle_pass_witness :
  tud_midi_mounted scripted_sdk (tud_task scripted_sdk offline_script)
    = (false, offline_script) /\
  ble_midi_server_is_connected scripted_sdk offline_script
    = (false, offline_script) /\
  main_loop_body scripted_sdk offline_script booted
  = Some (offline_script,
          after_calls [TudTask; TudMidiMounted; BleMidiServerIsConnected;
                       Cyw43ArchPoll; SleepMs 1] booted).
Proof.
  split; [reflexivity|]. split; [reflexivity|].
  apply (idle_pass scripted_sdk offline_script offline_script offline_script
           booted); reflexivity.
Defined.

(** X12. After any number [n] of passes, from any state and for any
    behaviour of the SDK, the loop has run the USB stack task, the
    wireless poll and the 1 ms sleep exactly [n] times each, has called
    each read function at most [n] times and has dispatched at most [n]
    messages from each transport; the earlier trace is still there, as a
    prefix. *)
Theorem main_loop_passes
    {env : Type} (K : sdk env) (n : nat) (e : env) (w : world) :
  wf w ->
  exists e' w' evs,
    main_loop K n e w = Some (e', w') /\
    wf w' /\
    trace w' = trace w ++ evs /\
    count is_tud_task evs = n /\
    count is_cyw43_poll evs = n /\
    count is_sleep_1ms evs = n /\
    (count is_usb_read evs <= n)%nat /\
    (count is_ble_read evs <= n)%nat /\
    (count (is_dispatch "USB") evs <= n)%nat /\
    (count (is_dispatch "BT") evs <= n)%nat.
Proof.
  revert e w. induction n as [|n IH]; intros e w Hwf.
  - exists e, w, []. split; [reflexivity|]. split; [exact Hwf|].
    split; [rewrite app_nil_r; reflexivity|].
    repeat split; reflexivity.
  - destruct (main_loop_body_pass K e w Hwf)
      as (e1 & w1 & evs1 & E1 & Hwf1 & _ & Htr1 & T1 & P1 & S1 & U1 & B1
          & DU1 & DB1).
    destruct (IH e1 w1 Hwf1)
      as (e2 & w2 & evs2 & E2 & Hwf2 & Htr2 & T2 & P2 & S2 & U2 & B2
          & DU2 & DB2).
    exists e2, w2, (evs1 ++ evs2).
    split; [cbn [main_loop]; rewrite E1; cbn [mbind option_bind]; exact E2|].
    split; [exact Hwf2|].
    split; [rewrite Htr2, Htr1, <- app_assoc; reflexivity|].
    rewrite !count_app. repeat split; lia.
Qed.

Lemma main_loop_passes_witness :
  wf power_on /\
  exists e' w' evs,
    main_loop scripted_sdk 3 busy_script power_on = Some (e', w') /\
    wf w' /\
    trace w' = trace power_on ++ evs /\
    count is_tud_task evs = 3%nat /\
    count is_cyw43_poll evs = 3%nat /\
    count is_sleep_1ms evs = 3%nat /\
    (count is_usb_read evs <= 3)%nat /\
    (count is_ble_read evs <= 3)%nat /\
    (count (is_dispatch "USB") evs <= 3)%nat /\
    (count (is_dispatch "BT") evs <= 3)%nat.
Proof.
  split; [reflexivity|].
  apply (main_loop_passes scripted_sdk 3 busy_script power_on). reflexivity.
Defined.

Lemma main_loop_consistent
    {env : Type} (K : sdk env) (n : nat) (e : env) (w : world) :
  consistent w ->
  exists e' w', main_loop K n e w = Some (e', w') /\ consistent w'.
Proof.
  revert e w. induction n as [|n IH]; intros e w Hc.
  - exists e, w. split; [reflexivity | exact Hc].
  - destruct (main_loop_body_pass K e w (proj1 Hc))
      as (e1 & w1 & evs1 & E1 & Hwf1 & Hcons & _).
    destruct (IH e1 w1 (Hcons Hc)) as (e2 & w2 & E2 & Hc2).
    exists e2, w2.
    split; [cbn [main_loop]; rewrite E1; cbn [mbind option_bind]; exact E2|].
    exact Hc2.
Qed.

(** X13. The loop keeps the array and the pins in step: started in a
    state where every relay pin was last driven to the level its slot
    holds, it is in such a state after any number of passes, whatever the
    transports deliver. *)
Theorem main_loop_mirrors
    {env : Type} (K : sdk env) (n : nat) (e : env) (w : world) :
  wf w -> mirrors w ->
  exists e' w',
    main_loop K n e w = Some (e', w') /\ wf w' /\ mirrors w'.
Proof.
  intros Hwf Hm.
  destruct (main_loop_consistent K n e w (conj Hwf Hm))
    as (e' & w' & E & Hwf' & Hm').
  exists e', w'. split; [exact E|]. split; assumption.
Qed.

Lemma main_loop_mirrors_witness :
  wf booted /\ mirrors booted /\
  exists e' w',
    main_loop scripted_sdk 3 busy_script booted = Some (e', w') /\
    wf w' /\ mirrors w'.
Proof.
  split; [reflexivity|].
  split; [intros id Hid; relay_cases id; reflexivity|].
  apply (main_loop_mirrors scripted_sdk 3 busy_script booted);
    [reflexivity | intros id Hid; relay_cases id; reflexivity].
Defined.

(** * Start-up *)

(** Puts the trace of the goal in the form [tr ++ events]. *)
Ltac flatten_trace := rewrite <- ?app_assoc; cbn [app].

Lemma pin_level_suffix (pin : Z) (tr evs : list event) (v : bool) :
  pin_level pin evs = Some v -> pin_level pin (tr ++ evs) = Some v.
Proof. intros H. rewrite pin_level_app, H. reflexivity. Qed.

(** X14. When [cyw43_arch_init] fails (returns non-zero), [main] returns
    -1 without entering its loop: the relay pins have been configured and
    driven low, the array and the flag [bluetooth_connected] are as they
    were, no transport has been polled and no message dispatched. *)
Theorem main_init_failure
    {env : Type} (B : sdk_start env) (K : sdk env)
    (n : nat) (e e1 : env) (rc : Z) (w : world) (bluetooth_connected : bool) :
  cyw43_arch_init B (stdio_init_all B e) = (rc, e1) ->
  rc <> 0 ->
  exists w' evs,
    main B K n e w bluetooth_connected
      = Some (Returned (-1), e1, w', bluetooth_connected) /\
    relay_states w' = relay_states w /\
    trace w' = trace w ++ evs /\
    (forall id : Z, 1 <= id <= 4 -> pin_level (15 + id) evs = Some false) /\
    count is_sdk_call evs = 0%nat /\
    count (is_dispatch "USB") evs = 0%nat /\
    count (is_dispatch "BT") evs = 0%nat.
Proof.
  intros Hinit Hrc. unfold main, main_startup. rewrite Hinit.
  replace (rc =? 0) with false by (symmetry; apply Z.eqb_neq; exact Hrc).
  destruct w as [rs tr].
  cbn [negb mbind option_bind printf emit init_relays seq gpio_init
       gpio_set_dir_out gpio_put relay_states trace].
  flatten_trace.
  eexists _, _. split; [reflexivity|]. cbn [relay_states trace].
  split; [reflexivity|]. split; [reflexivity|].
  split; [intros id Hid; relay_cases id; reflexivity|].
  repeat split.
Qed.

Lemma main_init_failure_witness :
  cyw43_arch_init (scripted_start 1)
    (stdio_init_all (scripted_start 1) busy_script) = (1, busy_script) /\
  1 <> 0 /\
  exists w' evs,
    main (scripted_start 1) scripted_sdk 5 busy_script power_on false
      = Some (Returned (-1), busy_script, w', false) /\
    relay_states w' = relay_states power_on /\
    trace w' = trace power_on ++ evs /\
    (forall id : Z, 1 <= id <= 4 -> pin_level (15 + id) evs = Some false) /\
    count is_sdk_call evs = 0%nat /\
    count (is_dispatch "USB") evs = 0%nat /\
    count (is_dispatch "BT") evs = 0%nat.
Proof.
  split; [reflexivity|]. split; [lia|].
  apply (main_init_failure (scripted_start 1) scripted_sdk 5 busy_script
           busy_script 1 power_on false); [reflexivity | lia].
Defined.

Lemma print_relay_states_run (w : world) :
  wf w ->
  print_relay_states w =
  Some {| relay_states := relay_states w;
          trace := trace w ++
                   [Printf "Relay States: [1:%s] [2:%s] [3:%s] [4:%s]\r\n"
                      (relay_states_report (relay_states w))] |}.
Proof. intros Hwf. explicit_world w Hwf. reflexivity. Qed.

(** The state in which [main] enters its loop. *)
Lemma main_startup_ok
    {env : Type} (B : sdk_start env) (e e1 : env) (w : world)
    (bluetooth_connected : bool) :
  cyw43_arch_init B (stdio_init_all B e) = (0, e1) ->
  relay_states w = [false; false; false; false] ->
  exists w0,
    main_startup B e w bluetooth_connected
      = Some (None, ble_midi_server_init B (tud_init B 0 e1), w0, false) /\
    relay_states w0 = [false; false; false; false] /\
    consistent w0 /\
    exists evs, trace w0 = trace w ++ evs /\ count is_sdk_call evs = 0%nat.
Proof.
  intros Hinit Hrs. unfold main_startup, setup_bluetooth_midi.
  rewrite Hinit. destruct w as [rs tr]. simpl in Hrs. subst rs.
  change (0 =? 0) with true.
  cbn [negb mbind option_bind printf emit init_relays seq gpio_init
       gpio_set_dir_out gpio_put relay_states trace].
  rewrite print_relay_states_run by reflexivity.
  cbn [mbind option_bind relay_states trace relay_states_report map].
  flatten_trace.
  eexists. split; [reflexivity|]. cbn [relay_states trace].
  split; [reflexivity|].
  split.
  - split; [reflexivity|].
    intros id Hid. cbn [relay_states trace].
    rewrite pin_level_app. relay_cases id; reflexivity.
  - eexists. split; [reflexivity | reflexivity].
Qed.

(** X15. When [cyw43_arch_init] succeeds, [main] started from reset (all
    four slots off) enters its loop and is still in it after any number
    of passes, whatever the transports deliver; throughout, the array has
    its four slots, every relay pin is at the level its slot holds, and
    the flag [bluetooth_connected] is false. *)
Theorem main_keeps_running
    {env : Type} (B : sdk_start env) (K : sdk env)
    (n : nat) (e e1 : env) (w : world) (bluetooth_connected : bool) :
  cyw43_arch_init B (stdio_init_all B e) = (0, e1) ->
  relay_states w = [false; false; false; false] ->
  exists e' w',
    main B K n e w bluetooth_connected = Some (InLoop, e', w', false) /\
    wf w' /\ mirrors w'.
Proof.
  intros Hinit Hrs.
  destruct (main_startup_ok B e e1 w bluetooth_connected Hinit Hrs)
    as (w0 & E0 & _ & Hc0 & _).
  destruct (main_loop_consistent K n
              (ble_midi_server_init B (tud_init B 0 e1)) w0 Hc0)
    as (e' & w' & E & Hwf' & Hm').
  exists e', w'. split; [|split; assumption].
  unfold main. rewrite E0. cbn [mbind option_bind]. rewrite E.
  reflexivity.
Qed.

Lemma main_keeps_running_witness :
  cyw43_arch_init (scripted_start 0)
    (stdio_init_all (scripted_start 0) busy_script) = (0, busy_script) /\
  relay_states power_on = [false; false; false; false] /\
  exists e' w',
    main (scripted_start 0) scripted_sdk 3 busy_script power_on false
      = Some (InLoop, e', w', false) /\
    wf w' /\ mirrors w'.
Proof.
  split; [reflexivity|]. split; [reflexivity|].
  apply (main_keeps_running (scripted_start 0) scripted_sdk 3 busy_script
           busy_script power_on false); reflexivity.
Defined.

(** * Relays move only when a message is dispatched *)

Lemma main_usb_check_cases {env : Type} (K : sdk env) (e : env) (w : world) :
  wf w ->
  exists e' w' evs,
    main_usb_check K e w = Some (e', w') /\
    wf w' /\
    trace w' = trace w ++ evs /\
    ((exists cs, w' = after_calls cs w) \/
     count (is_dispatch "USB") evs = 1%nat).
Proof.
  intros Hwf. unfold main_usb_check.
  destruct (tud_midi_mounted K e) as [[|] e2].
  - destruct (tud_midi_packet_read K e2) as [[p|] e3]; run_calls;
      rewrite after_calls_app; cbn [app].
    + set (w0 := after_calls [TudMidiMounted; TudMidiPacketRead] w).
      destruct (process_midi_message_run (packet_1 p) (packet_2 p)
                  (packet_3 p) false w0 Hwf)
        as (w' & evs & E & Hwf' & Htr & _ & _ & _ & Du & _).
      rewrite E. cbn [mbind option_bind].
      exists e3, w', (map Call [TudMidiMounted; TudMidiPacketRead] ++ evs).
      split; [reflexivity|]. split; [exact Hwf'|].
      split; [rewrite Htr; unfold w0, after_calls; cbn [trace];
              rewrite <- app_assoc; reflexivity|].
      right. rewrite count_app, Du. reflexivity.
    + eexists e3, _, _. split; [reflexivity|]. split; [exact Hwf|].
      split; [reflexivity|]. left. eexists. reflexivity.
  - run_calls. eexists e2, _, _. split; [reflexivity|]. split; [exact Hwf|].
    split; [reflexivity|]. left. eexists. reflexivity.
Qed.

Lemma main_ble_check_cases {env : Type} (K : sdk env) (e : env) (w : world) :
  wf w ->
  exists e' w' evs,
    main_ble_check K e w = Some (e', w') /\
    wf w' /\
    trace w' = trace w ++ evs /\
    ((exists cs, w' = after_calls cs w) \/
     count (is_dispatch "BT") evs = 1%nat).
Proof.
  intros Hwf. unfold main_ble_check.
  destruct (ble_midi_server_is_connected K e) as [[|] e2].
  - destruct (ble_midi_server_stream_read K 3 e2) as [[n buf] e3].
    run_calls. rewrite after_calls_app. cbn [app].
    set (w0 := after_calls
                 [BleMidiServerIsConnected; BleMidiServerStreamRead] w).
    assert (Hidle :
      exists e' w' evs,
        Some (e3, w0) = Some (e', w') /\
        wf w' /\
        trace w' = trace w ++ evs /\
        ((exists cs, w' = after_calls cs w) \/
         count (is_dispatch "BT") evs = 1%nat)).
    { eexists e3, w0, _. split; [reflexivity|]. split; [exact Hwf|].
      split; [reflexivity|]. left. eexists. reflexivity. }
    destruct (n >? 0); [|exact Hidle].
    destruct (n >=? 1); [|exact Hidle].
    cbv zeta.
    match goal with
    | |- context [process_midi_message ?s ?d1 ?d2 true w0] =>
        destruct (process_midi_message_run s d1 d2 true w0 Hwf)
          as (w' & evs & E & Hwf' & Htr & _ & _ & _ & _ & Db)
    end.
    rewrite E. cbn [mbind option_bind].
    exists e3, w',
      (map Call [BleMidiServerIsConnected; BleMidiServerStreamRead] ++ evs).
    split; [reflexivity|]. split; [exact Hwf'|].
    split; [rewrite Htr; unfold w0, after_calls; cbn [trace];
            rewrite <- app_assoc; reflexivity|].
    right. rewrite count_app, Db. reflexivity.
  - run_calls. eexists e2, _, _. split; [reflexivity|]. split; [exact Hwf|].
    split; [reflexivity|]. left. eexists. reflexivity.
Qed.

Lemma main_loop_body_quiet {env : Type} (K : sdk env) (e : env) (w : world) :
  wf w ->
  exists e' w' evs,
    main_loop_body K e w = Some (e', w') /\
    wf w' /\
    trace w' = trace w ++ evs /\
    (count (is_dispatch "USB") evs = 0%nat ->
     count (is_dispatch "BT") evs = 0%nat ->
     exists cs, w' = after_calls cs w).
Proof.
  intros Hwf.
  destruct (main_usb_check_cases K (tud_task K e) (after_calls [TudTask] w) Hwf)
    as (eu & wu & evs_u & Eu & Hwfu & Htru & Hu).
  destruct (main_ble_check_cases K eu wu Hwfu)
    as (eb & wb & evs_b & Eb & Hwfb & Htrb & Hb).
  exists (sleep_ms K 1 (cyw43_arch_poll K eb)),
         (after_calls [Cyw43ArchPoll; SleepMs 1] wb),
         (map Call [TudTask] ++ evs_u ++ evs_b
          ++ map Call [Cyw43ArchPoll; SleepMs 1]).
  split.
  { unfold main_loop_body. run_calls.
    rewrite Eu. cbn [mbind option_bind].
    rewrite Eb. cbn [mbind option_bind]. run_calls.
    rewrite after_calls_app. reflexivity. }
  split; [exact Hwfb|].
  split.
  { unfold after_calls at 1. cbn [trace]. rewrite Htrb, Htru.
    unfold after_calls. cbn [trace]. rewrite <- !app_assoc. reflexivity. }
  rewrite !count_app. intros HU HB.
  destruct Hu as [[cs_u ->] | Hu]; [|lia].
  destruct Hb as [[cs_b ->] | Hb]; [|lia].
  eexists. rewrite !after_calls_app. reflexivity.
Qed.

Lemma main_loop_quiet {env : Type} (K : sdk env) (n : nat) :
  forall (e : env) (w : world),
    wf w ->
    exists e' w' evs,
      main_loop K n e w = Some (e', w') /\
      trace w' = trace w ++ evs /\
      (count (is_dispatch "USB") evs = 0%nat ->
       count (is_dispatch "BT") evs = 0%nat ->
       exists cs, w' = after_calls cs w).
Proof.
  induction n as [|n IH]; intros e w Hwf.
  - exists e, w, []. split; [reflexivity|].
    split; [rewrite app_nil_r; reflexivity|].
    intros _ _. exists []. unfold after_calls. simpl.
    rewrite app_nil_r. destruct w; reflexivity.
  - destruct (main_loop_body_quiet K e w Hwf)
      as (e1 & w1 & evs1 & E1 & Hwf1 & Htr1 & Hq1).
    destruct (IH e1 w1 Hwf1) as (e2 & w2 & evs2 & E2 & Htr2 & Hq2).
    exists e2, w2, (evs1 ++ evs2).
    split; [cbn [main_loop]; rewrite E1; cbn [mbind option_bind]; exact E2|].
    split; [rewrite Htr2, Htr1, <- app_assoc; reflexivity|].
    rewrite !count_app. intros HU HB.
    destruct Hq1 as [cs1 ->]; [lia | lia |].
    destruct Hq2 as [cs2 ->]; [lia | lia |].
    eexists. rewrite after_calls_app. reflexivity.
Qed.

Lemma gpio_writes_calls (cs : list sdk_call) : gpio_writes (map Call cs) = [].
Proof. induction cs as [|c cs IH]; [reflexivity | exact IH]. Qed.

(** X16. The relays move only when a message is dispatched: if nothing
    was dispatched from either transport during some passes of the loop,
    then over those passes the array has not changed and no pin has been
    written. *)
Theorem quiet_loop_changes_nothing
    {env : Type} (K : sdk env) (n : nat) (e e' : env) (w w' : world)
    (evs : list event) :
  wf w ->
  main_loop K n e w = Some (e', w') ->
  trace w' = trace w ++ evs ->
  count (is_dispatch "USB") evs = 0%nat ->
  count (is_dispatch "BT") evs = 0%nat ->
  relay_states w' = relay_states w /\ gpio_writes evs = [].
Proof.
  intros Hwf E Htr HU HB.
  destruct (main_loop_quiet K n e w Hwf) as (e2 & w2 & evs2 & E2 & Htr2 & Hq).
  rewrite E in E2. inversion E2; subst e2 w2. clear E2.
  rewrite Htr in Htr2. apply app_inv_head in Htr2. subst evs2.
  destruct (Hq HU HB) as [cs ->].
  split; [reflexivity|].
  unfold after_calls in Htr. cbn [trace] in Htr.
  apply app_inv_head in Htr. rewrite <- Htr. apply gpio_writes_calls.
Qed.

Lemma quiet_loop_changes_nothing_witness :
  wf booted /\
  main_loop scripted_sdk 3 offline_script booted
    = Some (offline_script, booted_idle3) /\
  trace booted_idle3 = trace booted ++ idle3_events /\
  count (is_dispatch "USB") idle3_events = 0%nat /\
  count (is_dispatch "BT") idle3_events = 0%nat /\
  relay_states booted_idle3 = relay_states booted /\
  gpio_writes idle3_events = [].
Proof.
  split; [reflexivity|]. split; [reflexivity|]. split; [reflexivity|].
  split; [reflexivity|]. split; [reflexivity|].
  apply (quiet_loop_changes_nothing scripted_sdk 3 offline_script
           offline_script booted booted_idle3 idle3_events); reflexivity.
Defined.

(** * USB string descriptors *)

Example string_descriptor_product :
  (fun r => (fst r, descriptor_type (snd r), descriptor_length (snd r),
             descriptor_chars (snd r)))
    <$> tud_descriptor_string_cb 3 2 0x0409 (replicate 32 0xFFFF)
  = Some (DescStrPtr, 3, 18, chars "MidiMiti").
Proof. vm_compute. reflexivity. Qed.

Lemma strlen_bounds (str : list Z) :
  0 <= strlen str <= Z.of_nat (length str).
Proof.
  induction str as [|c str IH]; simpl; [lia|].
  destruct (c =? 0); lia.
Qed.

Lemma store16_in_range (i : nat) (v : Z) (desc : list Z) :
  (i < length desc)%nat ->
  store16 (Z.of_nat i) v desc = Some (<[i := v mod 65536]> desc).
Proof.
  intros H. unfold store16.
  replace ((0 <=? Z.of_nat i) && (Z.of_nat i <? Z.of_nat (length desc)))
    with true.
  - rewrite Nat2Z.id. reflexivity.
  - symmetry. apply andb_true_iff.
    split; [apply Z.leb_le | apply Z.ltb_lt]; lia.
Qed.

(** The copy loop writes words [1+k .. k+n] and nothing else. *)
Lemma copy_chars_spec (n : nat) :
  forall (k : nat) (str desc : list Z),
    (k + n <= length str)%nat ->
    (S k + n <= length desc)%nat ->
    copy_chars n (Z.of_nat k) str desc =
    Some (take (S k) desc
          ++ map (fun c => c mod 65536) (take n (drop k str))
          ++ drop (S k + n) desc).
Proof.
  induction n as [|n IH]; intros k str desc Hstr Hdesc.
  - simpl. rewrite Nat.add_0_r, take_drop. reflexivity.
  - cbn [copy_chars]. rewrite Nat2Z.id.
    destruct (str !! k) as [c|] eqn:Ec;
      [|apply lookup_ge_None_1 in Ec; lia].
    cbn [mbind option_bind].
    replace (1 + Z.of_nat k) with (Z.of_nat (S k)) by lia.
    rewrite store16_in_range by lia. cbn [mbind option_bind].
    replace (Z.of_nat k + 1) with (Z.of_nat (S k)) by lia.
    rewrite IH by (rewrite ?length_insert; lia).
    f_equal.
    rewrite (take_S_r (<[S k := c mod 65536]> desc) (S k) (c mod 65536))
      by (apply list_lookup_insert_eq; lia).
    rewrite take_insert_ge by lia.
    rewrite drop_insert_lt by lia.
    rewrite (drop_S str c k Ec). cbn [take map].
    rewrite <- app_assoc. cbn [app].
    replace (S (S k) + n)%nat with (S k + S n)%nat by lia.
    reflexivity.
Qed.

Lemma lor_shiftl_8 (hi lo : Z) :
  0 <= lo < 256 -> Z.lor (Z.shiftl hi 8) lo = hi * 256 + lo.
Proof.
  intros Hlo. rewrite Z.shiftl_mul_pow2 by lia. change (2 ^ 8) with 256.
  assert (Hland : Z.land (hi * 256) lo = 0).
  { apply Z.bits_inj'. intros n Hn. rewrite Z.land_spec, Z.bits_0.
    destruct (Z_lt_dec n 8) as [Hlt|Hge].
    - change 256 with (2 ^ 8). rewrite Z.mul_pow2_bits_low by lia. reflexivity.
    - rewrite <- (Z.mod_small lo (2 ^ 8)) by (change (2 ^ 8) with 256; lia).
      rewrite Z.mod_pow2_bits_high by lia. apply andb_false_r. }
  rewrite <- Z.lxor_lor by exact Hland.
  symmetry. apply Z.add_nocarry_lxor. exact Hland.
Qed.

(** Reading the header word back. *)
Lemma header_length (type count : Z) :
  0 <= count <= 31 ->
  Z.land (Z.lor (Z.shiftl type 8) (2 * count + 2) mod 65536) 0xFF
  = 2 * count + 2.
Proof.
  intros Hc. rewrite lor_shiftl_8 by lia.
  change 255 with (Z.ones 8). rewrite Z.land_ones by lia.
  change (2 ^ 8) with 256.
  pose proof (Z.mod_pos_bound (type * 256 + (2 * count + 2)) 65536).
  Z.div_mod_to_equations. lia.
Qed.

Lemma header_type (type count : Z) :
  0 <= type < 256 -> 0 <= count <= 31 ->
  Z.shiftr (Z.lor (Z.shiftl type 8) (2 * count + 2) mod 65536) 8 = type.
Proof.
  intros Ht Hc. rewrite lor_shiftl_8 by lia.
  rewrite Z.shiftr_div_pow2 by lia. change (2 ^ 8) with 256.
  rewrite Z.mod_small by lia.
  Z.div_mod_to_equations. lia.
Qed.

(** The callback on an entry of the table other than entry 0. *)
Lemma string_descriptor_entry
    (TUSB_DESC_STRING : Z) (table : list (list Z))
    (index langid : Z) (desc str : list Z) :
  length desc = 32%nat -> 1 <= index ->
  table !! Z.to_nat index = Some str ->
  tud_descriptor_string_cb_on TUSB_DESC_STRING table index langid desc =
  Some (DescStrPtr,
        (Z.lor (Z.shiftl TUSB_DESC_STRING 8)
               (2 * Z.min 31 (strlen str mod 256) + 2)) mod 65536
        :: map (fun c => c mod 65536)
             (take (Z.to_nat (Z.min 31 (strlen str mod 256))) str)
        ++ drop (1 + Z.to_nat (Z.min 31 (strlen str mod 256))) desc).
Proof.
  intros Hlen Hidx Hstr. unfold tud_descriptor_string_cb_on.
  replace (index =? 0) with false by (symmetry; apply Z.eqb_neq; lia).
  pose proof (lookup_lt_Some _ _ _ Hstr) as Hlt.
  replace (index <? Z.of_nat (length table)) with true
    by (symmetry; apply Z.ltb_lt; lia).
  cbn [negb]. rewrite Hstr. cbn [mbind option_bind].
  set (c := strlen str mod 256).
  assert (Hc : 0 <= c <= strlen str).
  { unfold c. pose proof (strlen_bounds str).
    pose proof (Z.mod_pos_bound (strlen str) 256).
    pose proof (Z.mod_le (strlen str) 256). lia. }
  replace (if c >? 31 then 31 else c) with (Z.min 31 c)
    by (rewrite Z.gtb_ltb; destruct (Z.ltb_spec 31 c); lia).
  set (n := Z.min 31 c). assert (Hn : 0 <= n <= 31) by lia.
  pose proof (strlen_bounds str) as Hs.
  change 0 with (Z.of_nat 0) at 1.
  rewrite copy_chars_spec by lia. cbn [mbind option_bind].
  unfold finish_descriptor. change 0 with (Z.of_nat 0) at 1.
  rewrite store16_in_range
    by (rewrite length_app, length_take; lia).
  cbn [mbind option_bind]. rewrite drop_0.
  destruct desc as [|d0 desc]; [discriminate|]. reflexivity.
Qed.

(** What a host reads back from the descriptor of a table entry. *)
Lemma string_descriptor_entry_fields
    (TUSB_DESC_STRING : Z) (table : list (list Z))
    (index langid : Z) (desc str : list Z) :
  length desc = 32%nat -> 1 <= index ->
  table !! Z.to_nat index = Some str ->
  exists buf,
    tud_descriptor_string_cb_on TUSB_DESC_STRING table index langid desc
      = Some (DescStrPtr, buf) /\
    length buf = 32%nat /\
    descriptor_length buf = 2 * Z.min 31 (strlen str mod 256) + 2 /\
    descriptor_chars buf =
      map (fun c => c mod 65536)
          (take (Z.to_nat (Z.min 31 (strlen str mod 256))) str) /\
    drop (1 + Z.to_nat (Z.min 31 (strlen str mod 256))) buf =
      drop (1 + Z.to_nat (Z.min 31 (strlen str mod 256))) desc /\
    (0 <= TUSB_DESC_STRING < 256 -> descriptor_type buf = TUSB_DESC_STRING).
Proof.
  intros Hlen Hidx Hstr.
  rewrite (string_descriptor_entry _ _ _ _ _ _ Hlen Hidx Hstr).
  set (n := Z.min 31 (strlen str mod 256)).
  assert (Hn : 0 <= n <= 31).
  { unfold n. pose proof (Z.mod_pos_bound (strlen str) 256). lia. }
  assert (Hs : n <= Z.of_nat (length str)).
  { unfold n. pose proof (strlen_bounds str).
    pose proof (Z.mod_le (strlen str) 256). lia. }
  assert (Htake : length (map (fun c => c mod 65536)
                           (take (Z.to_nat n) str)) = Z.to_nat n)
    by (rewrite length_map, length_take; lia).
  eexists. split; [reflexivity|].
  split; [cbn [length]; rewrite length_app, Htake, length_drop; lia|].
  assert (Hlenb : descriptor_length
            ((Z.lor (Z.shiftl TUSB_DESC_STRING 8) (2 * n + 2)) mod 65536
             :: map (fun c => c mod 65536) (take (Z.to_nat n) str)
             ++ drop (1 + Z.to_nat n) desc) = 2 * n + 2)
    by (unfold descriptor_length; cbn [nth]; apply header_length; exact Hn).
  split; [exact Hlenb|].
  split.
  { unfold descriptor_chars. rewrite Hlenb. cbn [drop].
    replace ((2 * n + 2 - 2) / 2) with n
      by (Z.div_mod_to_equations; lia).
    rewrite drop_0. apply take_app_length'. symmetry. exact Htake. }
  split.
  { change (1 + Z.to_nat n)%nat with (S (Z.to_nat n)). cbn [drop].
    rewrite drop_app_length' by (symmetry; exact Htake).
    reflexivity. }
  intros HT. unfold descriptor_type. cbn [nth].
  apply header_type; assumption.
Qed.

(** X17. For any table of strings and any index from 1 up, the callback
    never reads or writes out of bounds: it returns with the 32-word
    buffer still 32 words long.  Past the end of the table it returns NULL
    and leaves the buffer as it was.  For an entry of the table it
    returns the buffer, whose length byte is [2n + 2] and whose
    characters are the first [n] characters of the string, where
    [n = min 31 (strlen mod 256)]: strings are cut to 31 characters.  The
    words after those are left as the previous call left them. *)
Theorem string_descriptor_any_table
    (TUSB_DESC_STRING : Z) (table : list (list Z))
    (index langid : Z) (desc : list Z) :
  length desc = 32%nat -> 1 <= index ->
  exists r buf,
    tud_descriptor_string_cb_on TUSB_DESC_STRING table index langid desc
      = Some (r, buf) /\
    length buf = 32%nat /\
    match table !! Z.to_nat index with
    | None => r = NullPtr /\ buf = desc
    | Some str =>
        r = DescStrPtr /\
        descriptor_length buf = 2 * Z.min 31 (strlen str mod 256) + 2 /\
        descriptor_chars buf =
          map (fun c => c mod 65536)
              (take (Z.to_nat (Z.min 31 (strlen str mod 256))) str) /\
        drop (1 + Z.to_nat (Z.min 31 (strlen str mod 256))) buf =
          drop (1 + Z.to_nat (Z.min 31 (strlen str mod 256))) desc
    end.
Proof.
  intros Hlen Hidx.
  destruct (table !! Z.to_nat index) as [str|] eqn:Hstr.
  - destruct (string_descriptor_entry_fields TUSB_DESC_STRING table index
                langid desc str Hlen Hidx Hstr)
      as (buf & E & Hlenb & Hl & Hc & Hd & _).
    exists DescStrPtr, buf. split; [exact E|]. split; [exact Hlenb|].
    split; [reflexivity|]. split; [exact Hl|]. split; [exact Hc | exact Hd].
  - unfold tud_descriptor_string_cb_on.
    replace (index =? 0) with false by (symmetry; apply Z.eqb_neq; lia).
    apply lookup_ge_None_1 in Hstr.
    replace (index <? Z.of_nat (length table)) with false
      by (symmetry; apply Z.ltb_ge; lia).
    exists NullPtr, desc. split; [reflexivity|]. split; [exact Hlen|].
    split; reflexivity.
Qed.

Lemma string_descriptor_any_table_witness :
  length (replicate 32 0xFFFF) = 32%nat /\ 1 <= 1 /\
  exists r buf,
    tud_descriptor_string_cb_on 3 long_name_table 1 0x0409
      (replicate 32 0xFFFF)
      = Some (r, buf) /\
    length buf = 32%nat /\
    r = DescStrPtr /\
    descriptor_length buf = 64 /\
    descriptor_chars buf = chars "A product name that is much lon".
Proof.
  split; [reflexivity|]. split; [lia|].
  destruct (string_descriptor_any_table 3 long_name_table 1 0x0409
              (replicate 32 0xFFFF))
    as (r & buf & E & Hlen & Hr & Hl & Hc & _); [reflexivity | lia |].
  exists r, buf. split; [exact E|]. split; [exact Hlen|].
  split; [exact Hr|]. split; [exact Hl | exact Hc].
Defined.

(** X18. The three strings of the source are served whole: for index 1, 2
    or 3, whatever [langid] and whatever the buffer held before, the
    callback returns the buffer, and reading it back gives the descriptor
    type [TUSB_DESC_STRING], the length [2 * len + 2] and exactly the
    characters of the table entry ("MidiMiti", "MidiMiti", "123456"). *)
Theorem string_descriptor_round_trip
    (TUSB_DESC_STRING index langid : Z) (desc str : list Z) :
  0 <= TUSB_DESC_STRING < 256 ->
  length desc = 32%nat ->
  1 <= index <= 3 ->
  string_desc_arr !! Z.to_nat index = Some str ->
  exists buf,
    tud_descriptor_string_cb TUSB_DESC_STRING index langid desc
      = Some (DescStrPtr, buf) /\
    descriptor_type buf = TUSB_DESC_STRING /\
    descriptor_length buf = 2 * Z.of_nat (length str) + 2 /\
    descriptor_chars buf = str.
Proof.
  intros HT Hlen Hidx Hstr. unfold tud_descriptor_string_cb.
  destruct (string_descriptor_entry_fields TUSB_DESC_STRING string_desc_arr
              index langid desc str Hlen ltac:(lia) Hstr)
    as (buf & E & _ & Hl & Hc & _ & Hty).
  exists buf. split; [exact E|]. split; [apply Hty; exact HT|].
  assert (Hi : index = 1 \/ index = 2 \/ index = 3) by lia.
  destruct Hi as [-> | [-> | ->]]; vm_compute in Hstr;
    inversion Hstr; subst str; (split; [exact Hl | exact Hc]).
Qed.

Lemma string_descriptor_round_trip_witness :
  0 <= 3 < 256 /\
  length (replicate 32 0xFFFF) = 32%nat /\
  1 <= 3 <= 3 /\
  string_desc_arr !! Z.to_nat 3 = Some (chars "123456") /\
  exists buf,
    tud_descriptor_string_cb 3 3 0x0409 (replicate 32 0xFFFF)
      = Some (DescStrPtr, buf) /\
    descriptor_type buf = 3 /\
    descriptor_length buf = 2 * Z.of_nat (length (chars "123456")) + 2 /\
    descriptor_chars buf = chars "123456".
Proof.
  split; [lia|]. split; [reflexivity|]. split; [lia|].
  split; [reflexivity|].
  apply (string_descriptor_round_trip 3 3 0x0409 (replicate 32 0xFFFF)
           (chars "123456")); [lia | reflexivity | lia | reflexivity].
Defined.

(** The callback on index 0, the language descriptor. *)
Lemma string_descriptor_index_0
    (TUSB_DESC_STRING langid : Z) (desc : list Z) :
  length desc = 32%nat ->
  tud_descriptor_string_cb TUSB_DESC_STRING 0 langid desc =
  Some (DescStrPtr,
        (Z.lor (Z.shiftl TUSB_DESC_STRING 8) (2 * 1 + 2)) mod 65536
        :: 0x0409 :: drop 2 desc).
Proof.
  intros Hlen.
  unfold tud_descriptor_string_cb, tud_descriptor_string_cb_on,
         finish_descriptor.
  change (0 =? 0) with true. cbv iota.
  change (string_desc_arr !! 0%nat) with (Some [9; 4]).
  cbn [mbind option_bind].
  change ([9; 4] !! 0%nat) with (Some 9).
  change ([9; 4] !! 1%nat) with (Some 4).
  cbn [mbind option_bind].
  change (store16 1) with (store16 (Z.of_nat 1)).
  rewrite store16_in_range by lia. cbn [mbind option_bind].
  change (store16 0) with (store16 (Z.of_nat 0)).
  rewrite store16_in_range by (rewrite length_insert; lia).
  cbn [mbind option_bind].
  destruct desc as [|d0 [|d1 desc]]; [discriminate | discriminate |].
  reflexivity.
Qed.

(** X19. The callback of the source never fails and never changes the
    size of its buffer; it returns NULL exactly for the indices from 4
    up, and then leaves the buffer untouched. *)
Theorem string_descriptor_total
    (TUSB_DESC_STRING index langid : Z) (desc : list Z) :
  length desc = 32%nat -> 0 <= index ->
  exists r buf,
    tud_descriptor_string_cb TUSB_DESC_STRING index langid desc
      = Some (r, buf) /\
    length buf = 32%nat /\
    (r = NullPtr <-> 4 <= index) /\
    (r = NullPtr -> buf = desc).
Proof.
  intros Hlen Hidx.
  destruct (Z.eq_dec index 0) as [-> | Hnz].
  - rewrite string_descriptor_index_0 by exact Hlen.
    eexists _, _. split; [reflexivity|].
    split; [cbn [length]; rewrite length_drop; lia|].
    split; [split; [discriminate | lia] | discriminate].
  - unfold tud_descriptor_string_cb.
    destruct (string_desc_arr !! Z.to_nat index) as [str|] eqn:Hstr.
    + destruct (string_descriptor_entry_fields TUSB_DESC_STRING
                  string_desc_arr index langid desc str Hlen ltac:(lia) Hstr)
        as (buf & E & Hlenb & _).
      apply lookup_lt_Some in Hstr. simpl in Hstr.
      exists DescStrPtr, buf. split; [exact E|]. split; [exact Hlenb|].
      split; [split; [discriminate | lia] | discriminate].
    + apply lookup_ge_None_1 in Hstr. simpl in Hstr.
      unfold tud_descriptor_string_cb_on.
      replace (index =? 0) with false by (symmetry; apply Z.eqb_neq; lia).
      replace (index <? Z.of_nat (length string_desc_arr)) with false
        by (symmetry; apply Z.ltb_ge; simpl; lia).
      exists NullPtr, desc. split; [reflexivity|]. split; [exact Hlen|].
      split; [split; [lia | reflexivity] | reflexivity].
Qed.

Lemma string_descriptor_total_witness :
  length (replicate 32 0xFFFF) = 32%nat /\ 0 <= 200 /\
  exists r buf,
    tud_descriptor_string_cb 3 200 0x0409 (replicate 32 0xFFFF)
      = Some (r, buf) /\
    length buf = 32%nat /\
    (r = NullPtr <-> 4 <= 200) /\
    (r = NullPtr -> buf = replicate 32 0xFFFF).
Proof.
  split; [reflexivity|]. split; [lia|].
  apply (string_descriptor_total 3 200 0x0409 (replicate 32 0xFFFF));
    [reflexivity | lia].
Defined.

(** X20. Index 0 gives the language descriptor: whatever [langid] and the
    previous buffer, the callback returns the buffer holding a descriptor
    of type [TUSB_DESC_STRING] and length 4 whose one word is 0x0409, the
    two bytes 0x09, 0x04 of table entry 0 taken low byte first; the words
    after it are left as they were. *)
Theorem string_descriptor_language
    (TUSB_DESC_STRING langid : Z) (desc : list Z) :
  0 <= TUSB_DESC_STRING < 256 ->
  length desc = 32%nat ->
  exists buf,
    tud_descriptor_string_cb TUSB_DESC_STRING 0 langid desc
      = Some (DescStrPtr, buf) /\
    descriptor_type buf = TUSB_DESC_STRING /\
    descriptor_length buf = 4 /\
    descriptor_chars buf = [0x0409] /\
    drop 2 buf = drop 2 desc.
Proof.
  intros HT Hlen. rewrite string_descriptor_index_0 by exact Hlen.
  eexists. split; [reflexivity|].
  assert (Hl : descriptor_length
            ((Z.lor (Z.shiftl TUSB_DESC_STRING 8) (2 * 1 + 2)) mod 65536
             :: 0x0409 :: drop 2 desc) = 4)
    by (unfold descriptor_length; cbn [nth]; apply (header_length _ 1); lia).
  split; [unfold descriptor_type; cbn [nth]; apply (header_type _ 1); lia|].
  split; [exact Hl|].
  split; [unfold descriptor_chars; rewrite Hl; reflexivity | reflexivity].
Qed.

Lemma string_descriptor_language_witness :
  0 <= 3 < 256 /\
  length (replicate 32 0xFFFF) = 32%nat /\
  exists buf,
    tud_descriptor_string_cb 3 0 0 (replicate 32 0xFFFF)
      = Some (DescStrPtr, buf) /\
    descriptor_type buf = 3 /\
    descriptor_length buf = 4 /\
    descriptor_chars buf = [0x0409] /\
    drop 2 buf = drop 2 (replicate 32 0xFFFF).
Proof.
  split; [lia|]. split; [reflexivity|].
  apply (string_descriptor_language 3 0 (replicate 32 0xFFFF));
    [lia | reflexivity].
Defined.

(** * The device descriptor *)

Example desc_device_fields (TUSB_DESC_DEVICE : Z) :
  let d := tud_descriptor_device_cb TUSB_DESC_DEVICE in
  Z.of_nat (length d) = nth 0 d 0 /\
  field16 d 2 = 0x0200 /\
  nth 7 d 0 = 64 /\
  field16 d 8 = 0xCAA0 /\
  field16 d 10 = 0x4201 /\
  field16 d 12 = 0x0100.
Proof. repeat split. Qed.

(** X21. Every string the device descriptor refers to exists: for each of
    its three string-index fields (iManufacturer, iProduct,
    iSerialNumber), the string callback called with the index stored
    there returns a descriptor, not NULL, and that descriptor holds at
    least one character. *)
Theorem device_strings_served
    (TUSB_DESC_DEVICE TUSB_DESC_STRING langid : Z) (desc : list Z)
    (offset : nat) :
  length desc = 32%nat ->
  In offset string_index_offsets ->
  exists index buf,
    tud_descriptor_device_cb TUSB_DESC_DEVICE !! offset = Some index /\
    tud_descriptor_string_cb TUSB_DESC_STRING index langid desc
      = Some (DescStrPtr, buf) /\
    descriptor_chars buf <> [].
Proof.
  intros Hlen Hoff. simpl in Hoff.
  assert (Hserved : forall index str,
            1 <= index ->
            string_desc_arr !! Z.to_nat index = Some str ->
            Z.min 31 (strlen str mod 256) = Z.of_nat (length str) ->
            str <> [] ->
            (forall n, map (fun c => c mod 65536) (take n str) = take n str) ->
            exists buf,
              tud_descriptor_string_cb TUSB_DESC_STRING index langid desc
                = Some (DescStrPtr, buf) /\
              descriptor_chars buf <> []).
  { intros index str Hidx Hstr Hn Hne Hmod.
    destruct (string_descriptor_entry_fields TUSB_DESC_STRING string_desc_arr
                index langid desc str Hlen Hidx Hstr)
      as (buf & E & _ & _ & Hc & _).
    exists buf. split; [exact E|].
    rewrite Hc, Hn, Nat2Z.id, Hmod, firstn_all. exact Hne. }
  destruct Hoff as [<- | [<- | [<- | []]]].
  - destruct (Hserved 1 (chars "MidiMiti")) as (buf & E & Hc);
      [lia | reflexivity | reflexivity | discriminate
      | intros n; do 9 (destruct n as [|n]; [reflexivity|]); reflexivity |].
    exists 1, buf. split; [reflexivity|]. split; assumption.
  - destruct (Hserved 2 (chars "MidiMiti")) as (buf & E & Hc);
      [lia | reflexivity | reflexivity | discriminate
      | intros n; do 9 (destruct n as [|n]; [reflexivity|]); reflexivity |].
    exists 2, buf. split; [reflexivity|]. split; assumption.
  - destruct (Hserved 3 (chars "123456")) as (buf & E & Hc);
      [lia | reflexivity | reflexivity | discriminate
      | intros n; do 7 (destruct n as [|n]; [reflexivity|]); reflexivity |].
    exists 3, buf. split; [reflexivity|]. split; assumption.
Qed.

Lemma device_strings_served_witness :
  length (replicate 32 0xFFFF) = 32%nat /\
  In 15%nat string_index_offsets /\
  exists index buf,
    tud_descriptor_device_cb 1 !! 15%nat = Some index /\
    tud_descriptor_string_cb 3 index 0x0409 (replicate 32 0xFFFF)
      = Some (DescStrPtr, buf) /\
    descriptor_chars buf <> [].
Proof.
  split; [reflexivity|]. split; [simpl; tauto|].
  apply (device_strings_served 1 3 0x0409 (replicate 32 0xFFFF) 15);
    [reflexivity | simpl; tauto].
Defined.
